(** * Verification model of the trading-news listener service

    A shallow embedding of the C# listener service
    ([src/backend/services/listener]) and of its startup worker
    ([src/unnamed/part_004], class [Worker]):

    - [Json]: the JSON values read by System.Text.Json, a parser for their
      text, and the binding of JSON values to the C# model classes
      ([NewsAnalysisResponse], [LLMResponse], [Choice], [Message]);
    - [Listener]: the effects the services share (event log, UTC clock,
      the [analyzed_news] table and the in-process queue) as a state and
      exception monad, [LLMService.AnalyzeNewsAsync],
      [ConvertToAnalyzedNewsRecord], [PostgreSQLService.SaveAnalyzedNewsAsync]
      and the [NewsAnalysisBackgroundService] loop;
    - [Schema]: [PostgreSQLService.InitializeDatabaseAsync] over a catalog
      of relations;
    - [Workflow]: [NewsListenerWorkflow] and its signal handler;
    - [Startup]: the identity decision of [Worker.ExecuteAsync].

    Text is modelled as byte strings (Rocq [string]): the UTF-8 encoding of
    the .NET strings; a C# [double] read from JSON is modelled by the exact
    rational value ([Q]) of its literal; a [DateTime] by a [Z] count of
    ticks. *)

From Stdlib Require Import QArith Qabs Qround ZArith Ascii String.
From stdpp Require Import base gmap strings list pretty.

Set Warnings "-register-all".


(* ------------------------------------------------------------------ *)
(** ** C# runtime: exceptions and computations that may throw *)

Module Runtime.

(** The exceptions the modelled code can raise or catch. *)
Inductive exn : Type :=
| JsonException
| HttpRequestException
| TaskCanceledException
| PostgresException.

(** A value, or an exception in flight. *)
Inductive Exc (A : Type) : Type :=
| Ok (a : A)
| Throw (e : exn).

Arguments Ok {A} a.
Arguments Throw {A} e.

Global Instance Exc_ret : MRet Exc := fun A a => Ok a.
Global Instance Exc_bind : MBind Exc :=
  fun A B k m => match m with Ok a => k a | Throw e => Throw e end.

End Runtime.

(* ------------------------------------------------------------------ *)
(** ** JSON values, their text, and System.Text.Json binding *)

Module Json.

Inductive json : Type :=
| JNull
| JBool (b : bool)
| JNum (q : Q)
| JStr (s : string)
| JArr (xs : list json)
| JObj (ms : list (string * json)).

Definition is_code (c : ascii) (n : nat) : bool := Nat.eqb (nat_of_ascii c) n.

Definition is_ws (c : ascii) : bool :=
  is_code c 32 || is_code c 9 || is_code c 10 || is_code c 13.

Fixpoint skip_ws (s : list ascii) : list ascii :=
  match s with
  | c :: r => if is_ws c then skip_ws r else s
  | [] => []
  end.

Definition digit_val (c : ascii) : option nat :=
  let n := nat_of_ascii c in
  if (48 <=? n) && (n <=? 57) then Some (n - 48) else None.

Definition hex_val (c : ascii) : option Z :=
  let n := nat_of_ascii c in
  if (48 <=? n) && (n <=? 57) then Some (Z.of_nat (n - 48))
  else if (97 <=? n) && (n <=? 102) then Some (Z.of_nat (n - 87))
  else if (65 <=? n) && (n <=? 70) then Some (Z.of_nat (n - 55))
  else None.

Fixpoint span_digits (s : list ascii) : list nat * list ascii :=
  match s with
  | c :: r =>
      match digit_val c with
      | Some d => let '(ds, rest) := span_digits r in (d :: ds, rest)
      | None => ([], s)
      end
  | [] => ([], [])
  end.

Definition digits_Z (ds : list nat) : Z :=
  fold_left (fun acc d => acc * 10 + Z.of_nat d)%Z ds 0%Z.

(** The exact value [m * 10^e] of a number literal. *)
Definition scaled_Q (m : Z) (e : Z) : Q :=
  if (0 <=? e)%Z then Qmake (m * 10 ^ e) 1
  else Qmake m (Z.to_pos (10 ^ (- e))).

(** A JSON number: [-? (0 | [1-9][0-9]* ) (. [0-9]+)? ([eE] [+-]? [0-9]+)?];
    leading zeros are refused, as by [Utf8JsonReader]. *)
Definition parse_number (s : list ascii) : option (json * list ascii) :=
  let '(neg, s1) :=
    match s with
    | "-"%char :: r => (true, r)
    | _ => (false, s)
    end in
  let '(ip, s2) := span_digits s1 in
  match ip with
  | [] => None
  | 0 :: _ :: _ => None
  | _ =>
    let frac :=
      match s2 with
      | "."%char :: r =>
          let '(ds, r') := span_digits r in
          match ds with [] => None | _ => Some (ds, r') end
      | _ => Some ([], s2)
      end in
    match frac with
    | None => None
    | Some (fp, s3) =>
      let expo :=
        match s3 with
        | e :: r =>
            if is_code e 101 || is_code e 69 then
              let '(sgn, r1) :=
                match r with
                | "-"%char :: r1 => (true, r1)
                | "+"%char :: r1 => (false, r1)
                | _ => (false, r)
                end in
              let '(ds, r2) := span_digits r1 in
              match ds with
              | [] => None
              | _ => Some ((if sgn then - digits_Z ds else digits_Z ds)%Z, r2)
              end
            else Some (0%Z, s3)
        | [] => Some (0%Z, s3)
        end in
      match expo with
      | None => None
      | Some (ex, s4) =>
          let m := digits_Z (ip ++ fp) in
          let m := if neg then (- m)%Z else m in
          Some (JNum (scaled_Q m (ex - Z.of_nat (length fp))%Z), s4)
      end
    end
  end.

(** UTF-8 bytes of a code point read from [\uXXXX] escapes: a surrogate
    pair gives the 4-byte encoding of the code point it denotes; a
    surrogate code unit that is not part of a pair is kept as the 3-byte
    sequence [ED A0..BF xx], which no UTF-8 text contains. *)
Definition utf8_of_code (n : Z) : list ascii :=
  let b (k : Z) := ascii_of_N (Z.to_N k) in
  if (n <? 128)%Z then [b n]
  else if (n <? 2048)%Z then [b (192 + n / 64); b (128 + n mod 64)]%Z
  else if (n <? 65536)%Z then
    [b (224 + n / 4096); b (128 + (n / 64) mod 64); b (128 + n mod 64)]%Z
  else [b (240 + n / 262144); b (128 + (n / 4096) mod 64);
        b (128 + (n / 64) mod 64); b (128 + n mod 64)]%Z.

Definition is_high_surrogate (u : Z) : bool := (55296 <=? u)%Z && (u <=? 56319)%Z.
Definition is_low_surrogate (u : Z) : bool := (56320 <=? u)%Z && (u <=? 57343)%Z.

(** The code point of a high and a low surrogate. *)
Definition surrogate_pair (hi lo : Z) : Z := (65536 + (hi - 55296) * 1024 + (lo - 56320))%Z.

Definition simple_escape (e : ascii) : option ascii :=
  let n := nat_of_ascii e in
  if Nat.eqb n 34 then Some e
  else if Nat.eqb n 92 then Some e
  else if Nat.eqb n 47 then Some e
  else if Nat.eqb n 98 then Some (ascii_of_nat 8)
  else if Nat.eqb n 102 then Some (ascii_of_nat 12)
  else if Nat.eqb n 110 then Some (ascii_of_nat 10)
  else if Nat.eqb n 114 then Some (ascii_of_nat 13)
  else if Nat.eqb n 116 then Some (ascii_of_nat 9)
  else None.

(** The body of a string literal, after its opening quote: up to and
    including the closing quote. Raw control characters are refused. A
    [\uXXXX] high surrogate followed by a [\uXXXX] low surrogate is read as
    one code point. *)
Fixpoint parse_string_body (s : list ascii) : option (list ascii * list ascii) :=
  match s with
  | [] => None
  | c :: r =>
      if is_code c 34 then Some ([], r)
      else if is_code c 92 then
        match r with
        | e :: r' =>
            if is_code e 117 then
              match r' with
              | h1 :: h2 :: h3 :: h4 :: r'' =>
                  match hex_val h1, hex_val h2, hex_val h3, hex_val h4 with
                  | Some a, Some b, Some c', Some d =>
                      let u := (((a * 16 + b) * 16 + c') * 16 + d)%Z in
                      let single :=
                        match parse_string_body r'' with
                        | Some (cs, rest) => Some (utf8_of_code u ++ cs, rest)
                        | None => None
                        end in
                      if is_high_surrogate u then
                        match r'' with
                        | b1 :: x :: k1 :: k2 :: k3 :: k4 :: r4 =>
                            if is_code b1 92 && is_code x 117 then
                              match hex_val k1, hex_val k2, hex_val k3, hex_val k4 with
                              | Some a2, Some b2, Some c2, Some d2 =>
                                  let lo := (((a2 * 16 + b2) * 16 + c2) * 16 + d2)%Z in
                                  if is_low_surrogate lo then
                                    match parse_string_body r4 with
                                    | Some (cs, rest) =>
                                        Some (utf8_of_code (surrogate_pair u lo) ++ cs, rest)
                                    | None => None
                                    end
                                  else single
                              | _, _, _, _ => None
                              end
                            else single
                        | _ => single
                        end
                      else single
                  | _, _, _, _ => None
                  end
              | _ => None
              end
            else
              match simple_escape e with
              | Some ch =>
                  match parse_string_body r' with
                  | Some (cs, rest) => Some (ch :: cs, rest)
                  | None => None
                  end
              | None => None
              end
        | [] => None
        end
      else if nat_of_ascii c <? 32 then None
      else
        match parse_string_body r with
        | Some (cs, rest) => Some (c :: cs, rest)
        | None => None
        end
  end.

(** Array elements after [\[] (the array is known to be non-empty). *)
Fixpoint parse_elems (pv : list ascii -> option (json * list ascii))
    (fuel : nat) (s : list ascii) : option (list json * list ascii) :=
  match fuel with
  | O => None
  | S f =>
      match pv s with
      | None => None
      | Some (v, r) =>
          match skip_ws r with
          | ","%char :: r' =>
              match parse_elems pv f r' with
              | Some (vs, r'') => Some (v :: vs, r'')
              | None => None
              end
          | "]"%char :: r' => Some ([v], r')
          | _ => None
          end
      end
  end.

(** Object members after [{] (the object is known to be non-empty). *)
Fixpoint parse_members (pv : list ascii -> option (json * list ascii))
    (fuel : nat) (s : list ascii) : option (list (string * json) * list ascii) :=
  match fuel with
  | O => None
  | S f =>
      match skip_ws s with
      | q :: r =>
          if is_code q 34 then
            match parse_string_body r with
            | None => None
            | Some (k, r1) =>
                match skip_ws r1 with
                | ":"%char :: r2 =>
                    match pv r2 with
                    | None => None
                    | Some (v, r3) =>
                        match skip_ws r3 with
                        | ","%char :: r4 =>
                            match parse_members pv f r4 with
                            | Some (ms, r5) => Some ((string_of_list_ascii k, v) :: ms, r5)
                            | None => None
                            end
                        | "}"%char :: r4 => Some ([(string_of_list_ascii k, v)], r4)
                        | _ => None
                        end
                    end
                | _ => None
                end
            end
          else None
      | [] => None
      end
  end.

Fixpoint parse_value (fuel : nat) (s : list ascii) : option (json * list ascii) :=
  match fuel with
  | O => None
  | S f =>
      match skip_ws s with
      | "n"%char :: "u"%char :: "l"%char :: "l"%char :: r => Some (JNull, r)
      | "t"%char :: "r"%char :: "u"%char :: "e"%char :: r => Some (JBool true, r)
      | "f"%char :: "a"%char :: "l"%char :: "s"%char :: "e"%char :: r => Some (JBool false, r)
      | "["%char :: r =>
          match skip_ws r with
          | "]"%char :: r' => Some (JArr [], r')
          | _ =>
              match parse_elems (parse_value f) (length s) r with
              | Some (vs, r') => Some (JArr vs, r')
              | None => None
              end
          end
      | "{"%char :: r =>
          match skip_ws r with
          | "}"%char :: r' => Some (JObj [], r')
          | _ =>
              match parse_members (parse_value f) (length s) r with
              | Some (ms, r') => Some (JObj ms, r')
              | None => None
              end
          end
      | (c :: r) as s' =>
          if is_code c 34 then
            match parse_string_body r with
            | Some (cs, rest) => Some (JStr (string_of_list_ascii cs), rest)
            | None => None
            end
          else parse_number s'
      | [] => None
      end
  end.

(** The nesting depth of a value: the number of arrays and objects on
    the deepest path. *)
Fixpoint json_depth (v : json) : nat :=
  match v with
  | JArr xs => S (fold_right Nat.max 0 (map json_depth xs))
  | JObj ms => S (fold_right Nat.max 0 (map (fun '(_, x) => json_depth x) ms))
  | _ => 0
  end.

(** The reader's [MaxDepth] (64 by default). *)
Definition max_depth : nat := 64.

(** [Utf8JsonReader]-level parse of a whole text: one value nested at most
    [max_depth] deep, then only white space. [None] is a text on which
    System.Text.Json throws a [JsonException] (this includes the empty
    text). *)
Definition parse_json (t : string) : option json :=
  let s := list_ascii_of_string t in
  match parse_value (S (length s)) s with
  | Some (v, r) =>
      match skip_ws r with
      | [] => if json_depth v <=? max_depth then Some v else None
      | _ => None
      end
  | None => None
  end.

End Json.

(* ------------------------------------------------------------------ *)
(** ** The model classes ([Models/NewsAnalysis.cs], [Services/LLMService.cs],
    and [RSSFeedRecord] / [SignalData] of the listener)

    A C# reference ([string], [List<T>], a class) may be [null]; where
    System.Text.Json can store [null] into a property, the property is an
    [option] ([None] is [null]). Each class is a module holding its record
    [t], so that the properties keep their C# names. *)

Module Message.
  (** [public string Content { get; set; } = string.Empty;] *)
Record t := mk { Content : option string }.
Definition default : t := mk (Some "").
End Message.

Module Choice.
  (** [public Message Message { get; set; } = new();] *)
Record t := mk { Message : option Message.t }.
Definition default : t := mk (Some Message.default).
End Choice.

Module LLMResponse.
  (** [public List<Choice> Choices { get; set; } = new();] *)
Record t := mk { Choices : option (list (option Choice.t)) }.
End LLMResponse.

Module NewsAnalysisResponse.
Record t := mk {
    Tickers : option (list (option string));
    Sector : option string;
    Industry : option string;
    Sentiment : option string;
    Entities : option (list (option string));
    Summary : option string;
    Confidence : Q
  }.
End NewsAnalysisResponse.

Module RSSFeedRecord.
  (** The signal payload: non-nullable [string] properties are never
      [null]; [Category] and [Sentiment] are declared [string?]. *)
Record t := mk {
    Title : string;
    Description : string;
    Link : string;
    PublishedDate : string;
    Source : string;
    Id : string;
    Category : option string;
    Sentiment : option string
  }.
End RSSFeedRecord.

Module SignalData.
Record t := mk {
    Id : string;
    Timestamp : string;
    Data : RSSFeedRecord.t
  }.
End SignalData.

Module AnalyzedNewsRecord.
Record t := mk {
    Id : string;
    Title : string;
    Description : string;
    Link : string;
    PublishedAt : Z;
    Source : string;
    Category : string;
    OriginalSentiment : string;
    AnalyzedSentiment : option string;
    Sector : option string;
    Industry : option string;
    Tickers : string;
    Entities : string;
    Summary : option string;
    Confidence : Q;
    AnalyzedAt : Z
  }.
End AnalyzedNewsRecord.

(* ------------------------------------------------------------------ *)
(** ** System.Text.Json: [JsonSerializer.Deserialize<T>] and
    [JsonSerializer.Serialize] with the default options *)

Module Bind.
Import Runtime Json.

(** The value of the last member named [k] (names are matched
    case-sensitively). *)
Definition find_prop (k : string) (ms : list (string * json)) : option json :=
  fold_left (fun acc m => if String.eqb m.1 k then Some m.2 else acc) ms None.

(** The property bound to member [k]: each member named [k] is converted in
    turn (so an ill-typed one throws even when a later one is fine) and the
    last conversion is kept; the property keeps its initializer when no
    member has that name. Unknown members are skipped. *)
Fixpoint prop_from {A} (k : string) (ms : list (string * json)) (cur : A)
    (b : json -> Exc A) : Exc A :=
  match ms with
  | [] => Ok cur
  | m :: r => if String.eqb m.1 k then (v ← b m.2; prop_from k r v b) else prop_from k r cur b
  end.

Definition prop {A} (k : string) (ms : list (string * json)) (dflt : A)
    (b : json -> Exc A) : Exc A :=
  prop_from k ms dflt b.

(** A text holding an unpaired surrogate read from a [\uXXXX] escape (the
    bytes [ED A0..BF], see [utf8_of_code]). *)
Fixpoint lone_surrogate (l : list ascii) : bool :=
  match l with
  | c :: ((d :: _) as r) =>
      (is_code c 237 && (160 <=? nat_of_ascii d) && (nat_of_ascii d <=? 191))
      || lone_surrogate r
  | _ => false
  end.

Definition has_lone_surrogate (s : string) : bool := lone_surrogate (list_ascii_of_string s).

(** Unescaping a string value or a member name into a .NET string throws
    on an unpaired surrogate ([InvalidOperationException], wrapped by the
    serializer). The member names of an object bound to a class are all
    unescaped, to look the property up; the values of skipped members are
    not. *)
Definition check_names (ms : list (string * json)) : Exc unit :=
  if existsb (fun m => has_lone_surrogate m.1) ms then Throw JsonException else Ok tt.

Definition bind_string (j : json) : Exc (option string) :=
  match j with
  | JStr s => if has_lone_surrogate s then Throw JsonException else Ok (Some s)
  | JNull => Ok None
  | _ => Throw JsonException
  end.

Fixpoint bind_string_items (xs : list json) : Exc (list (option string)) :=
  match xs with
  | [] => Ok []
  | x :: r => s ← bind_string x; l ← bind_string_items r; Ok (s :: l)
  end.

Definition bind_string_list (j : json) : Exc (option (list (option string))) :=
  match j with
  | JArr xs => l ← bind_string_items xs; Ok (Some l)
  | JNull => Ok None
  | _ => Throw JsonException
  end.

(** The least magnitude a number literal rounds to infinity at: literals
    of at least [2^1024 - 2^970] do not fit a [double]. *)
Definition double_overflow : Q := inject_Z (2 ^ 1024 - 2 ^ 970)%Z.

(** A [double] property takes a JSON number only ([null] and strings throw),
    and the number must be finite as a [double]. *)
Definition bind_double (j : json) : Exc Q :=
  match j with
  | JNum q => if Qlt_le_dec (Qabs q) double_overflow then Ok q else Throw JsonException
  | _ => Throw JsonException
  end.

Definition bind_news_analysis (ms : list (string * json)) : Exc NewsAnalysisResponse.t :=
  tickers ← prop "tickers" ms (Some []) bind_string_list;
  sector ← prop "sector" ms (Some "") bind_string;
  industry ← prop "industry" ms (Some "") bind_string;
  sentiment ← prop "sentiment" ms (Some "") bind_string;
  entities ← prop "entities" ms (Some []) bind_string_list;
  summary ← prop "summary" ms (Some "") bind_string;
  confidence ← prop "confidence" ms 0%Q bind_double;
  Ok (NewsAnalysisResponse.mk tickers sector industry sentiment entities summary confidence).

Definition bind_message (j : json) : Exc (option Message.t) :=
  match j with
  | JObj ms =>
      _ ← check_names ms;
      c ← prop "content" ms (Some "") bind_string; Ok (Some (Message.mk c))
  | JNull => Ok None
  | _ => Throw JsonException
  end.

Definition bind_choice (j : json) : Exc (option Choice.t) :=
  match j with
  | JObj ms =>
      _ ← check_names ms;
      m ← prop "message" ms (Some Message.default) bind_message; Ok (Some (Choice.mk m))
  | JNull => Ok None
  | _ => Throw JsonException
  end.

Fixpoint bind_choice_items (xs : list json) : Exc (list (option Choice.t)) :=
  match xs with
  | [] => Ok []
  | x :: r => c ← bind_choice x; l ← bind_choice_items r; Ok (c :: l)
  end.

Definition bind_choices (j : json) : Exc (option (list (option Choice.t))) :=
  match j with
  | JArr xs => l ← bind_choice_items xs; Ok (Some l)
  | JNull => Ok None
  | _ => Throw JsonException
  end.

Definition bind_llm_response (ms : list (string * json)) : Exc LLMResponse.t :=
  cs ← prop "choices" ms (Some []) bind_choices; Ok (LLMResponse.mk cs).

(** [JsonSerializer.Deserialize<T>(text)] for a class [T]: an unreadable
    text throws, the literal [null] gives [null], an object is bound
    member by member, any other value throws. *)
Definition deserialize {A} (bind : list (string * json) -> Exc A) (text : string)
    : Exc (option A) :=
  match parse_json text with
  | None => Throw JsonException
  | Some JNull => Ok None
  | Some (JObj ms) => _ ← check_names ms; a ← bind ms; Ok (Some a)
  | Some _ => Throw JsonException
  end.

(** [JsonSerializer.Serialize] of a [List<string>] with the default
    encoder: the double quote and the HTML-sensitive characters as
    [\u00XX], the backslash doubled, the short escapes of control
    characters, and every non-ASCII character as [\uXXXX] (upper-case hex;
    a character beyond U+FFFF as its UTF-16 surrogate pair). *)
Definition hex_digit (n : nat) : ascii :=
  if n <? 10 then ascii_of_nat (48 + n) else ascii_of_nat (55 + n).

Definition escape_char (c : ascii) : list ascii :=
  let n := nat_of_ascii c in
  let u := [ "\"%char; "u"%char; "0"%char; "0"%char;
             hex_digit (n / 16); hex_digit (n mod 16) ] in
  if Nat.eqb n 92 then [ "\"%char; "\"%char ]
  else if Nat.eqb n 8 then [ "\"%char; "b"%char ]
  else if Nat.eqb n 9 then [ "\"%char; "t"%char ]
  else if Nat.eqb n 10 then [ "\"%char; "n"%char ]
  else if Nat.eqb n 12 then [ "\"%char; "f"%char ]
  else if Nat.eqb n 13 then [ "\"%char; "r"%char ]
  else if (n <? 32) || Nat.eqb n 34 || Nat.eqb n 38 || Nat.eqb n 39
          || Nat.eqb n 43 || Nat.eqb n 60 || Nat.eqb n 62 || Nat.eqb n 96
          || Nat.eqb n 127 then u
  else [c].

(** [\uXXXX] for a UTF-16 code unit. *)
Definition u_escape (u : Z) : list ascii :=
  let h (k : Z) := hex_digit (Z.to_nat k) in
  [ "\"%char; "u"%char; h (u / 4096); h ((u / 256) mod 16); h ((u / 16) mod 16); h (u mod 16) ]%Z.

Definition escape_code (cp : Z) : list ascii :=
  if (cp <? 128)%Z then escape_char (ascii_of_N (Z.to_N cp))
  else if (cp <? 65536)%Z then u_escape cp
  else u_escape (55296 + (cp - 65536) / 1024)%Z ++ u_escape (56320 + (cp - 65536) mod 1024)%Z.

(** A UTF-8 continuation byte, as its 6 payload bits. *)
Definition cont (c : ascii) : option Z :=
  let n := nat_of_ascii c in
  if (128 <=? n) && (n <? 192) then Some (Z.of_nat n - 128)%Z else None.

(** The code point at the head of a non-empty UTF-8 text and the rest of
    the text. A byte that does not start a well-formed sequence (which no
    .NET string encodes) reads as U+FFFD. *)
Definition decode_char (b0 : ascii) (r : list ascii) : Z * list ascii :=
  let n := Z.of_nat (nat_of_ascii b0) in
  if (n <? 128)%Z then (n, r)
  else if (194 <=? n)%Z && (n <=? 223)%Z then
    match r with
    | b1 :: r1 => match cont b1 with Some x1 => ((n - 192) * 64 + x1, r1)%Z | None => (65533%Z, r) end
    | [] => (65533%Z, r)
    end
  else if (224 <=? n)%Z && (n <=? 239)%Z then
    match r with
    | b1 :: b2 :: r2 =>
        match cont b1, cont b2 with
        | Some x1, Some x2 =>
            let cp := ((n - 224) * 4096 + x1 * 64 + x2)%Z in
            if (2048 <=? cp)%Z && negb (is_high_surrogate cp || is_low_surrogate cp)
            then (cp, r2) else (65533%Z, r)
        | _, _ => (65533%Z, r)
        end
    | _ => (65533%Z, r)
    end
  else if (240 <=? n)%Z && (n <=? 244)%Z then
    match r with
    | b1 :: b2 :: b3 :: r3 =>
        match cont b1, cont b2, cont b3 with
        | Some x1, Some x2, Some x3 =>
            let cp := ((n - 240) * 262144 + x1 * 4096 + x2 * 64 + x3)%Z in
            if (65536 <=? cp)%Z && (cp <=? 1114111)%Z then (cp, r3) else (65533%Z, r)
        | _, _, _ => (65533%Z, r)
        end
    | _ => (65533%Z, r)
    end
  else (65533%Z, r).

Fixpoint escape_text (fuel : nat) (l : list ascii) : list ascii :=
  match fuel, l with
  | S f, b0 :: r => let '(cp, r') := decode_char b0 r in escape_code cp ++ escape_text f r'
  | _, _ => []
  end.

Definition serialize_string (s : string) : list ascii :=
  let q := ascii_of_nat 34 in
  let l := list_ascii_of_string s in
  q :: escape_text (length l) l ++ [q].

Definition serialize_item (o : option string) : list ascii :=
  match o with
  | Some s => serialize_string s
  | None => list_ascii_of_string "null"
  end.

Fixpoint join_items (xs : list (option string)) : list ascii :=
  match xs with
  | [] => []
  | [x] => serialize_item x
  | x :: r => serialize_item x ++ ","%char :: join_items r
  end.

Definition serialize_string_list (l : option (list (option string))) : string :=
  match l with
  | None => "null"
  | Some xs => string_of_list_ascii ("["%char :: join_items xs ++ ["]"%char])
  end.

End Bind.

(* ------------------------------------------------------------------ *)
(** ** The [analyzed_news] table and [SaveAnalyzedNewsAsync]'s upsert *)

Module Row.
  (** A row of [analyzed_news]; [None] is SQL [NULL]. *)
Record t := mk {
    id : string;
    title : string;
    description : option string;
    link : option string;
    published_at : Z;
    source : option string;
    category : option string;
    original_sentiment : option string;
    analyzed_sentiment : option string;
    sector : option string;
    industry : option string;
    tickers : string;
    entities : string;
    summary : option string;
    confidence : Q;
    analyzed_at : Z
  }.
End Row.

Module Table.
Import Runtime AnalyzedNewsRecord.

(** The [VALUES (...)] row built from the command's parameters
    ([x ?? DBNull.Value] is [Some x], the record's strings being set). *)
Definition row_of_record (r : AnalyzedNewsRecord.t) : Row.t :=
  Row.mk (Id r) (Title r) (Some (Description r)) (Some (Link r)) (PublishedAt r)
    (Some (Source r)) (Some (Category r)) (Some (OriginalSentiment r))
    (AnalyzedSentiment r) (Sector r) (Industry r) (Tickers r) (Entities r)
    (Summary r) (Confidence r) (AnalyzedAt r).

(** [ON CONFLICT (id) DO UPDATE SET analyzed_sentiment = EXCLUDED...,
    sector, industry, tickers, entities, summary, confidence, analyzed_at]. *)
Definition on_conflict_update (old ex : Row.t) : Row.t :=
  Row.mk (Row.id old) (Row.title old) (Row.description old) (Row.link old)
    (Row.published_at old) (Row.source old) (Row.category old)
    (Row.original_sentiment old)
    (Row.analyzed_sentiment ex) (Row.sector ex) (Row.industry ex)
    (Row.tickers ex) (Row.entities ex) (Row.summary ex) (Row.confidence ex)
    (Row.analyzed_at ex).

(** *** Conversion of the parameters to the column types

    The server raises an error (an [NpgsqlException] / [PostgresException]
    in the client) when a value does not fit its column. *)

(** A text parameter: PostgreSQL refuses the NUL character in text. *)
Definition text (s : string) : Exc string :=
  if existsb (fun c => Nat.eqb (nat_of_ascii c) 0) (list_ascii_of_string s)
  then Throw PostgresException else Ok s.

Definition is_continuation_byte (c : ascii) : bool :=
  let n := nat_of_ascii c in (128 <=? n) && (n <? 192).

(** The number of characters of a UTF-8 text. *)
Definition char_length (s : string) : nat :=
  length (filter (fun c => negb (is_continuation_byte c)) (list_ascii_of_string s)).

(** Assignment to a [VARCHAR(n)] column (the function [varchar] with
    [isExplicit = false]): a text of at most [n] characters is kept; a
    longer one is cut to [n] characters when the characters cut are all
    spaces, and raises "value too long" otherwise. *)
Definition varchar (n : nat) (s : string) : Exc string :=
  let k := char_length s - n in
  if k =? 0 then Ok s
  else
    let rl := rev (list_ascii_of_string s) in
    if forallb (fun c => Nat.eqb (nat_of_ascii c) 32) (take k rl)
    then Ok (string_of_list_ascii (rev (drop k rl)))
    else Throw PostgresException.

(** A JSON value with a NUL character in a string (the [\u0000] escape). *)
Fixpoint json_has_nul (v : Json.json) : bool :=
  match v with
  | Json.JStr s => existsb (fun c => Nat.eqb (nat_of_ascii c) 0) (list_ascii_of_string s)
  | Json.JArr xs => existsb json_has_nul xs
  | Json.JObj ms => existsb (fun '(k, x) =>
                      existsb (fun c => Nat.eqb (nat_of_ascii c) 0) (list_ascii_of_string k)
                      || json_has_nul x) ms
  | _ => false
  end.

(** [@x::jsonb]: the text must be JSON, and [jsonb] refuses [\u0000]. The
    texts cast here are those [JsonSerializer.Serialize] writes for a
    [List<string>] (arrays of strings and [null]s, or [null]), which the
    reader of [Json] reads as PostgreSQL's JSON parser does. The column
    keeps the value the text denotes; the model keeps the text. *)
Definition jsonb (s : string) : Exc string :=
  match Json.parse_json s with
  | Some v => if json_has_nul v then Throw PostgresException else Ok s
  | None => Throw PostgresException
  end.

(** Rounding of a rational to an integer: half to even, and half away
    from zero. *)
Definition round_half_even (q : Q) : Z :=
  let f := Qfloor q in
  let d := (q - inject_Z f)%Q in
  if Qlt_le_dec d (1 # 2) then f
  else if Qeq_bool d (1 # 2) then (if Z.even f then f else f + 1)%Z
  else (f + 1)%Z.

Definition round_half_away (q : Q) : Z :=
  if Qlt_le_dec q 0 then (- Qfloor (- q + (1 # 2)))%Z else Qfloor (q + (1 # 2)).

Definition pow10 (e : Z) : Q := if (0 <=? e)%Z then inject_Z (10 ^ e) else / inject_Z (10 ^ (- e)).

(** The number of decimal digits of a positive integer, less one. *)
Fixpoint log10_aux (fuel : nat) (z : Z) : Z :=
  match fuel with
  | O => 0
  | S f => if (z <? 10)%Z then 0 else (1 + log10_aux f (z / 10))%Z
  end.

Definition log10_floor (z : Z) : Z := log10_aux (Z.to_nat (Z.log2 z) + 1) z.

(** [floor (log10 |q|)] for [q <> 0]. *)
Definition exponent10 (q : Q) : Z :=
  let n := Z.abs (Qnum q) in
  let d := Zpos (Qden q) in
  let k := (log10_floor n - log10_floor d)%Z in
  if Qle_bool (pow10 k) (Qabs q) then k else (k - 1)%Z.

(** [float8_numeric]: the [double] printed with 15 significant digits
    ([%.15g], rounding half to even) and read back as a [numeric]. *)
Definition float8_numeric (q : Q) : Q :=
  if Qeq_bool q 0 then 0
  else
    let s := (14 - exponent10 q)%Z in
    (inject_Z (round_half_even (q * pow10 s)) * pow10 (- s))%Q.

(** Assignment to the [DECIMAL(5,4)] column: rounded to 4 decimal places
    (half away from zero); a value whose rounding is 10 or more in absolute
    value raises "numeric field overflow". *)
Definition numeric_5_4 (q : Q) : Exc Q :=
  let r := round_half_away (float8_numeric q * 10000) in
  if (Z.abs r <? 100000)%Z then Ok (r # 10000) else Throw PostgresException.

Definition opt {A} (f : A -> Exc A) (o : option A) : Exc (option A) :=
  match o with
  | None => Ok None
  | Some x => y ← f x; Ok (Some y)
  end.

(** The row of [VALUES (...)] converted to the column types. *)
Definition coerce_row (ex : Row.t) : Exc Row.t :=
  id ← (text (Row.id ex) ≫= varchar 255);
  title ← text (Row.title ex);
  description ← opt text (Row.description ex);
  link ← opt text (Row.link ex);
  source ← opt (fun s => text s ≫= varchar 500) (Row.source ex);
  category ← opt (fun s => text s ≫= varchar 100) (Row.category ex);
  original_sentiment ← opt (fun s => text s ≫= varchar 50) (Row.original_sentiment ex);
  analyzed_sentiment ← opt (fun s => text s ≫= varchar 50) (Row.analyzed_sentiment ex);
  sector ← opt (fun s => text s ≫= varchar 100) (Row.sector ex);
  industry ← opt (fun s => text s ≫= varchar 200) (Row.industry ex);
  tickers ← (text (Row.tickers ex) ≫= jsonb);
  entities ← (text (Row.entities ex) ≫= jsonb);
  summary ← opt text (Row.summary ex);
  confidence ← numeric_5_4 (Row.confidence ex);
  Ok (Row.mk id title description link (Row.published_at ex) source category
        original_sentiment analyzed_sentiment sector industry tickers entities
        summary confidence (Row.analyzed_at ex)).

(** The row a record is written as, or the error the statement raises. *)
Definition values_row (r : AnalyzedNewsRecord.t) : Exc Row.t := coerce_row (row_of_record r).

(** The [INSERT ... ON CONFLICT (id) DO UPDATE] statement: the converted
    [id] (the primary key) keys the table; an error leaves the table as it
    was. *)
Definition upsert (r : AnalyzedNewsRecord.t) (db : gmap string Row.t) : Exc (gmap string Row.t) :=
  ex ← values_row r;
  match db !! Row.id ex with
  | None => Ok (<[Row.id ex := ex]> db)
  | Some old => Ok (<[Row.id ex := on_conflict_update old ex]> db)
  end.



End Table.

(* ------------------------------------------------------------------ *)
(** ** The listener's effects: log, clock, table and queue *)

Module Listener.
Import Runtime Json Bind.

Inductive level := Information | Warning | Error.

(** Observable effects: a log entry (level, message, news title), an
    HTTP request to the chat-completion endpoint for a news title, a
    [Task.Delay] in seconds. *)
Inductive event :=
| EvLog (lvl : level) (what : string) (title : string)
| EvHttpPost (title : string)
| EvDelay (seconds : Z).

Record World := mkWorld {
  w_events : list event;
  w_clock : nat;                      (* number of [DateTime.UtcNow] reads *)
  w_db : gmap string Row.t;           (* the [analyzed_news] table *)
  w_queue : list SignalData.t         (* the news waiting for analysis *)
}.

(** A computation: state passing, and an exception that leaves the effects
    done before it in place. *)
Definition M (A : Type) : Type := World -> Exc A * World.

Global Instance M_ret : MRet M := fun A a w => (Ok a, w).
Global Instance M_bind : MBind M := fun A B k m w =>
  match m w with
  | (Ok a, w') => k a w'
  | (Throw e, w') => (Throw e, w')
  end.

Definition throw {A} (e : exn) : M A := fun w => (Throw e, w).
Definition lift {A} (x : Exc A) : M A := fun w => (x, w).

(** [try { m } catch (Exception) { h }]. *)
Definition try_catch {A} (m : M A) (h : exn -> M A) : M A := fun w =>
  match m w with
  | (Throw e, w') => h e w'
  | r => r
  end.

Definition emit (e : event) : M unit := fun w =>
  (Ok tt, mkWorld (w_events w ++ [e]) (w_clock w) (w_db w) (w_queue w)).

Definition log (lvl : level) (what title : string) : M unit := emit (EvLog lvl what title).

Definition task_delay (seconds : Z) : M unit := emit (EvDelay seconds).

(** The reply of the chat-completion endpoint: an exception from
    [PostAsync] (transport failure, time-out), or a status and a body. *)
Inductive HttpOutcome :=
| HttpThrows (e : exn)
| HttpReply (status : Z) (body : string).

(** [HttpResponseMessage.IsSuccessStatusCode]. *)
Definition is_success_status_code (status : Z) : bool :=
  (200 <=? status)%Z && (status <=? 299)%Z.

(** [llmResponse?.Choices?.FirstOrDefault()?.Message?.Content]. *)
Definition first_content (o : option LLMResponse.t) : option string :=
  match o with
  | Some r =>
      match LLMResponse.Choices r with
      | Some (Some ch :: _) =>
          match Choice.Message ch with
          | Some m => Message.Content m
          | None => None
          end
      | _ => None
      end
  | None => None
  end.

Section Services.

(** The i-th reading of [DateTime.UtcNow]. *)
Variable clock : nat -> Z.
(** [DateTime.TryParse]. *)
Variable date_try_parse : string -> option Z.
(** The endpoint's reply to the request built for a news record. *)
Variable llm_http : RSSFeedRecord.t -> HttpOutcome.

Definition utc_now : M Z := fun w =>
  (Ok (clock (w_clock w)), mkWorld (w_events w) (S (w_clock w)) (w_db w) (w_queue w)).

(** The [try] block of [LLMService.AnalyzeNewsAsync]. The prompt is
    filled from the record and posted; [llm_http] gives the reply to that
    request. *)
Definition analyze_news_try_block (r : RSSFeedRecord.t) : M (option NewsAnalysisResponse.t) :=
  let title := RSSFeedRecord.Title r in
    (log Information "Sending news to LLM for analysis" title ;;
     emit (EvHttpPost title) ;;
     match llm_http r with
     | HttpThrows e => throw e
     | HttpReply status body =>
         if negb (is_success_status_code status) then
           log Error "LLM API request failed" body ;;
           mret None
         else
           llm ← lift (deserialize bind_llm_response body);
           match first_content llm with
           | None =>
               log Warning "LLM response is empty or invalid" "" ;;
               mret None
           | Some analysis_json =>
               analysis ← lift (deserialize bind_news_analysis analysis_json);
               log Information "LLM analysis completed for" title ;;
               mret analysis
           end
     end).

(** [LLMService.AnalyzeNewsAsync]: every exception is caught, logged, and
    turned into [null]. *)
Definition analyze_news_async (r : RSSFeedRecord.t) : M (option NewsAnalysisResponse.t) :=
  try_catch (analyze_news_try_block r)
    (fun _ => log Error "Error analyzing news with LLM" (RSSFeedRecord.Title r) ;; mret None).

(** [NewsAnalysisBackgroundService.ConvertToAnalyzedNewsRecord] (the copy
    in [NewsAnalysisActivity] is the same code). *)
Definition convert_to_analyzed_news_record (sd : SignalData.t)
    (analysis : NewsAnalysisResponse.t) : M AnalyzedNewsRecord.t :=
  let d := SignalData.Data sd in
  now0 ← utc_now;
  published_at ←
    (if String.eqb (RSSFeedRecord.PublishedDate d) "" then mret now0
     else match date_try_parse (RSSFeedRecord.PublishedDate d) with
          | Some t => mret t
          | None => utc_now
          end);
  analyzed_at ← utc_now;
  mret (AnalyzedNewsRecord.mk
          (RSSFeedRecord.Id d) (RSSFeedRecord.Title d) (RSSFeedRecord.Description d)
          (RSSFeedRecord.Link d) published_at (RSSFeedRecord.Source d)
          (default "" (RSSFeedRecord.Category d))
          (default "" (RSSFeedRecord.Sentiment d))
          (NewsAnalysisResponse.Sentiment analysis)
          (NewsAnalysisResponse.Sector analysis)
          (NewsAnalysisResponse.Industry analysis)
          (serialize_string_list (NewsAnalysisResponse.Tickers analysis))
          (serialize_string_list (NewsAnalysisResponse.Entities analysis))
          (NewsAnalysisResponse.Summary analysis)
          (NewsAnalysisResponse.Confidence analysis)
          analyzed_at).

(** The upsert statement run against the table. *)
Definition exec_upsert (r : AnalyzedNewsRecord.t) : M unit := fun w =>
  match Table.upsert r (w_db w) with
  | Ok db' => (Ok tt, mkWorld (w_events w) (w_clock w) db' (w_queue w))
  | Throw e => (Throw e, w)
  end.

(** [PostgreSQLService.SaveAnalyzedNewsAsync]: the database is taken to be
    reachable; the errors modelled are those the row's values raise. The
    [catch] logs and rethrows. *)
Definition save_analyzed_news_async (r : AnalyzedNewsRecord.t) : M unit :=
  try_catch
    (exec_upsert r ;;
     log Information "Saved analyzed news to PostgreSQL" (AnalyzedNewsRecord.Title r))
    (fun e => log Error "Failed to save analyzed news to PostgreSQL" (AnalyzedNewsRecord.Title r) ;;
              throw e).

(** [NewsAnalysisBackgroundService.ProcessNewsSignal]. *)
Definition process_news_signal (sd : SignalData.t) : M unit :=
  let title := RSSFeedRecord.Title (SignalData.Data sd) in
  try_catch
    (log Information "Starting LLM analysis for" title ;;
     analysis_result ← analyze_news_async (SignalData.Data sd);
     match analysis_result with
     | None => log Warning "LLM analysis returned null for news" title
     | Some analysis =>
         analyzed_record ← convert_to_analyzed_news_record sd analysis;
         save_analyzed_news_async analyzed_record ;;
         log Information "Successfully analyzed and saved news" title
     end)
    (fun _ => log Error "Failed to analyze and save news" title).

(** Modelled from the spec: [NewsListenerWorkflow.TryDequeueNews], called
    by the background service but absent from the repository's sources,
    is the non-blocking dequeue of the in-memory FIFO queue: it removes
    and returns the oldest waiting item, or reports an empty queue. *)
Definition try_dequeue_news : M (option SignalData.t) := fun w =>
  match w_queue w with
  | [] => (Ok None, w)
  | sd :: rest => (Ok (Some sd), mkWorld (w_events w) (w_clock w) (w_db w) rest)
  end.

(** One pass of the [while] body of [ProcessNewsQueue] while the stopping
    token is not cancelled (so the [catch ... when] filter holds). *)
Definition process_news_queue_iteration : M unit :=
  try_catch
    (news_data ← try_dequeue_news;
     match news_data with
     | Some sd => process_news_signal sd
     | None => task_delay 2
     end)
    (fun _ => log Error "Error processing news queue" "" ;; task_delay 5).

Inductive loop_status := Stopped | StillRunning.

(** [ProcessNewsQueue]: [tokens] lists the values read from
    [stoppingToken.IsCancellationRequested] at the successive loop heads;
    when they run out the loop is still running. *)
Fixpoint process_news_queue (tokens : list bool) : M loop_status :=
  match tokens with
  | [] => mret StillRunning
  | true :: _ => mret Stopped
  | false :: rest => process_news_queue_iteration ;; process_news_queue rest
  end.

End Services.

(** The HTTP requests issued, by news title. *)
Definition post_of (e : event) : option string :=
  match e with
  | EvHttpPost t => Some t
  | _ => None
  end.

Definition posts (evs : list event) : list string := omap post_of evs.

(** The warnings that an analysis returned no result, by news title. *)
Definition null_warning_of (e : event) : option string :=
  match e with
  | EvLog Warning what t =>
      if String.eqb what "LLM analysis returned null for news" then Some t else None
  | _ => None
  end.

Definition null_warnings (evs : list event) : list string := omap null_warning_of evs.

End Listener.

(* ------------------------------------------------------------------ *)
(** ** [PostgreSQLService.InitializeDatabaseAsync] over the catalog *)

Module Schema.
Import Runtime.

(** A relation of the catalog: a table with its column names, or an
    index on a column of a table. Tables and indexes share one name
    space, as in PostgreSQL. *)
Inductive relation :=
| Table (columns : list string)
| Index (table column : string).

Inductive stmt :=
| CreateTableIfNotExists (name : string) (columns : list string) (primary_key : string)
| AlterTableAddColumnIfNotExists (table column : string)
| CreateIndexIfNotExists (name table column : string).

(** [ChooseRelationName(name, NULL, "pkey", ...)]: [name_pkey], or else
    [name_pkey1], [name_pkey2], ..., the first that no relation has. *)
Definition pkey_candidate (table : string) (pass : nat) : string :=
  table +:+ "_pkey" +:+ (match pass with O => "" | S _ => pretty pass end).

Fixpoint choose_from (c : gmap string relation) (table : string) (pass fuel : nat) : string :=
  match fuel with
  | O => pkey_candidate table pass
  | S f =>
      match c !! pkey_candidate table pass with
      | None => pkey_candidate table pass
      | Some _ => choose_from c table (S pass) f
      end
  end.

(** At most [size c] names are taken, so one of the first [size c + 1]
    candidates is free. *)
Definition choose_pkey_name (c : gmap string relation) (table : string) : string :=
  choose_from c table 0 (size c).

(** One statement; a failing statement raises an error. [CREATE TABLE]
    with a [PRIMARY KEY] also creates the unique index of the key. *)
Definition exec (s : stmt) (c : gmap string relation) : Exc (gmap string relation) :=
  match s with
  | CreateTableIfNotExists n cols pk =>
      match c !! n with
      | Some _ => Ok c
      | None =>
          let c1 := <[n := Table cols]> c in
          Ok (<[choose_pkey_name c1 n := Index n pk]> c1)
      end
  | AlterTableAddColumnIfNotExists t col =>
      match c !! t with
      | Some (Table cols) =>
          if bool_decide (col ∈ cols) then Ok c
          else Ok (<[t := Table (cols ++ [col])]> c)
      | _ => Throw PostgresException
      end
  | CreateIndexIfNotExists n t col =>
      match c !! n with
      | Some _ => Ok c
      | None =>
          match c !! t with
          | Some (Table cols) =>
              if bool_decide (col ∈ cols) then Ok (<[n := Index t col]> c)
              else Throw PostgresException
          | _ => Throw PostgresException
          end
      end
  end.

(** The statements of one command run in order; the first error aborts
    the command (its implicit transaction is rolled back and the
    exception is rethrown). *)
Fixpoint exec_all (ss : list stmt) (c : gmap string relation) : Exc (gmap string relation) :=
  match ss with
  | [] => Ok c
  | s :: r => c' ← exec s c; exec_all r c'
  end.

Definition analyzed_news_columns : list string :=
  ["id"; "title"; "description"; "link"; "published_at"; "source"; "category";
   "original_sentiment"; "analyzed_sentiment"; "sector"; "industry"; "tickers";
   "entities"; "summary"; "confidence"; "analyzed_at"].

(** [createTableSql]. *)
Definition create_table_sql : list stmt :=
  [ CreateTableIfNotExists "analyzed_news" analyzed_news_columns "id";
    AlterTableAddColumnIfNotExists "analyzed_news" "industry";
    CreateIndexIfNotExists "idx_analyzed_news_analyzed_at" "analyzed_news" "analyzed_at";
    CreateIndexIfNotExists "idx_analyzed_news_sector" "analyzed_news" "sector";
    CreateIndexIfNotExists "idx_analyzed_news_industry" "analyzed_news" "industry";
    CreateIndexIfNotExists "idx_analyzed_news_sentiment" "analyzed_news" "analyzed_sentiment" ].

Definition initialize_database (c : gmap string relation) : Exc (gmap string relation) :=
  exec_all create_table_sql c.

End Schema.

(* ------------------------------------------------------------------ *)
(** ** [NewsListenerWorkflow] *)

Module Workflow.

(** The workflow's field [_receivedSignals]. *)
Record state := mk { received_signals : list SignalData.t }.

(** [HandleNewsSignal]: the signal is added to [_receivedSignals]; the rest
    of the handler writes log lines and completes. *)
Definition handle_news_signal (signal_data : SignalData.t) (st : state) : state :=
  mk (received_signals st ++ [signal_data]).

(** [GetSignalsCount]. *)
Definition get_signals_count (st : state) : nat := length (received_signals st).

(** [GetLatestSignals(count)]: [TakeLast(count)]. *)
Definition get_latest_signals (count : nat) (st : state) : list SignalData.t :=
  drop (length (received_signals st) - count) (received_signals st).

End Workflow.

(* ------------------------------------------------------------------ *)
(** ** [Worker.ExecuteAsync]: starting or attaching to the workflow *)

Module Startup.

(** [Temporalio.Api.Enums.V1.WorkflowExecutionStatus]. *)
Inductive WorkflowExecutionStatus :=
| Unspecified | Running | Completed | Failed | Canceled | Terminated
| ContinuedAsNew | TimedOut.

(** The engine's answer to [StartWorkflowAsync] for an id. *)
Inductive StartOutcome :=
| Started
| AlreadyStarted          (* [WorkflowAlreadyStartedException] *)
| StartError.             (* any other exception *)

(** The workflow the worker ends up holding a handle to, or the
    exception rethrown from [ExecuteAsync]. *)
Inductive Outcome :=
| Attached (id : string)
| Launched (id : string)
| StartupFailed.

Definition workflow_id : string := "news-feed-workflow".

(** [$"{workflowId}-{DateTime.UtcNow:yyyyMMdd-HHmmss}"] for a formatted
    time [stamp]. *)
Definition suffixed_id (stamp : string) : string := workflow_id +:+ "-" +:+ stamp.

Definition is_terminal (s : WorkflowExecutionStatus) : bool :=
  match s with
  | Canceled | Terminated | Failed | Completed => true
  | _ => false
  end.

Section ExecuteAsync.

Variable start : string -> StartOutcome.
(** [DescribeAsync]: the status, or [None] when the call throws. *)
Variable describe : option WorkflowExecutionStatus.
(** The two formatted readings of the clock the routine may take. *)
Variables stamp1 stamp2 : string.

(** The [catch (Exception ex)] branch around the status check. *)
Definition start_fallback : list string * Outcome :=
  let id := suffixed_id stamp2 in
  match start id with
  | Started => ([id], Launched id)
  | _ => ([id], StartupFailed)
  end.

(** The ids passed to [StartWorkflowAsync], in order, and the outcome. *)
Definition execute_startup : list string * Outcome :=
  match start workflow_id with
  | Started => ([workflow_id], Launched workflow_id)
  | StartError => ([workflow_id], StartupFailed)
  | AlreadyStarted =>
      match describe with
      | None => let '(ids, o) := start_fallback in (workflow_id :: ids, o)
      | Some status =>
          if is_terminal status then
            let id := suffixed_id stamp1 in
            match start id with
            | Started => ([workflow_id; id], Launched id)
            | _ => let '(ids, o) := start_fallback in (workflow_id :: id :: ids, o)
            end
          else ([workflow_id], Attached workflow_id)
      end
  end.

End ExecuteAsync.

End Startup.

(* ------------------------------------------------------------------ *)
(** ** [LLMService.LoadPromptsFromMarkdown] and the user prompt of
    [AnalyzeNewsAsync] *)

Module Prompts.











(** [s.Replace(oldValue, newValue)]: an ordinal scan from the left; each
    occurrence found is replaced and the scan resumes after it. [skip]
    counts the characters of the occurrence just replaced that are still
    to be passed over. (The code's [oldValue]s are non-empty.) *)
Fixpoint replace_from (old_value new_value s : string) (skip : nat) : string :=
  match s with
  | EmptyString => EmptyString
  | String c s' =>
      match skip with
      | S k => replace_from old_value new_value s' k
      | O =>
          if String.prefix old_value s
          then new_value +:+ replace_from old_value new_value s'
                               (String.length old_value - 1)
          else String c (replace_from old_value new_value s' 0)
      end
  end.

Definition replace (old_value new_value s : string) : string :=
  replace_from old_value new_value s 0.

(** [userPrompt] in [AnalyzeNewsAsync]: the four chained [Replace] calls. *)
Definition user_prompt (user_prompt_template : string) (r : RSSFeedRecord.t) : string :=
  replace "{published_at}" (RSSFeedRecord.PublishedDate r)
    (replace "{source}" (RSSFeedRecord.Source r)
       (replace "{description}" (RSSFeedRecord.Description r)
          (replace "{title}" (RSSFeedRecord.Title r) user_prompt_template))).

(** A template read as a sequence of literal texts and placeholders. *)
Inductive placeholder := PTitle | PDescription | PSource | PPublishedAt.

Inductive piece :=
| Text (s : string)
| Hole (p : placeholder).

Definition placeholder_text (p : placeholder) : string :=
  match p with
  | PTitle => "{title}"
  | PDescription => "{description}"
  | PSource => "{source}"
  | PPublishedAt => "{published_at}"
  end.

Definition field (r : RSSFeedRecord.t) (p : placeholder) : string :=
  match p with
  | PTitle => RSSFeedRecord.Title r
  | PDescription => RSSFeedRecord.Description r
  | PSource => RSSFeedRecord.Source r
  | PPublishedAt => RSSFeedRecord.PublishedDate r
  end.

(** The template text of a sequence of pieces. *)
Definition render (ps : list piece) : string :=
  foldr (fun pc acc =>
           match pc with Text s => s | Hole p => placeholder_text p end +:+ acc) "" ps.

(** The same sequence with each placeholder replaced by the record's field. *)
Definition filled (r : RSSFeedRecord.t) (ps : list piece) : string :=
  foldr (fun pc acc =>
           match pc with Text s => s | Hole p => field r p end +:+ acc) "" ps.

(** The literal texts of a sequence of pieces. *)
Definition texts (ps : list piece) : list string :=
  foldr (fun pc acc => match pc with Text s => s :: acc | Hole _ => acc end) [] ps.

Definition placeholder_eqb (p q : placeholder) : bool :=
  match p, q with
  | PTitle, PTitle | PDescription, PDescription
  | PSource, PSource | PPublishedAt, PPublishedAt => true
  | _, _ => false
  end.

(** The sequence with each occurrence of placeholder [q] replaced by the
    literal text [v]. *)
Definition subst_hole (q : placeholder) (v : string) (ps : list piece) : list piece :=
  map (fun pc => match pc with
                 | Hole p => if placeholder_eqb p q then Text v else pc
                 | Text _ => pc
                 end) ps.

End Prompts.

(* ------------------------------------------------------------------ *)
(** ** [NewsAnalysisActivity.AnalyzeAndSaveNewsAsync] *)

Module Activity.
Import Runtime Listener.

Section Run.

Variable clock : nat -> Z.
Variable date_try_parse : string -> option Z.
Variable llm_http : RSSFeedRecord.t -> HttpOutcome.

(** The activity: the steps of [ProcessNewsSignal], but its [catch] logs
    and rethrows. Its private [ConvertToAnalyzedNewsRecord] is the same
    code as the background service's. *)
Definition analyze_and_save_news_async (signal_data : SignalData.t) : M unit :=
  let title := RSSFeedRecord.Title (SignalData.Data signal_data) in
  try_catch
    (log Information "Starting analysis for news" title ;;
     analysis_result ← analyze_news_async llm_http (SignalData.Data signal_data);
     match analysis_result with
     | None => log Warning "LLM analysis returned null for news" title
     | Some analysis =>
         analyzed_record ←
           convert_to_analyzed_news_record clock date_try_parse signal_data analysis;
         save_analyzed_news_async analyzed_record ;;
         log Information "Successfully analyzed and saved news" title
     end)
    (fun e => log Error "Failed to analyze and save news" title ;; throw e).

End Run.

End Activity.

(* ------------------------------------------------------------------ *)
(** ** Sequences of calls *)

Module Batches.
Import Runtime.

(** The table after a call of [SaveAnalyzedNewsAsync]: a failing call
    leaves it as it was. *)
Definition save_or_keep (r : AnalyzedNewsRecord.t) (db : gmap string Row.t) : gmap string Row.t :=
  match Table.upsert r db with Ok db' => db' | Throw _ => db end.



(** The record [ConvertToAnalyzedNewsRecord] returns for a news item and
    its analysis, [p] and [t] being the published-at and analyzed-at times
    it computed. *)
Definition analyzed_record (sd : SignalData.t) (a : NewsAnalysisResponse.t) (p t : Z)
    : AnalyzedNewsRecord.t :=
  let d := SignalData.Data sd in
  AnalyzedNewsRecord.mk
    (RSSFeedRecord.Id d) (RSSFeedRecord.Title d) (RSSFeedRecord.Description d)
    (RSSFeedRecord.Link d) p (RSSFeedRecord.Source d)
    (default "" (RSSFeedRecord.Category d))
    (default "" (RSSFeedRecord.Sentiment d))
    (NewsAnalysisResponse.Sentiment a)
    (NewsAnalysisResponse.Sector a)
    (NewsAnalysisResponse.Industry a)
    (Bind.serialize_string_list (NewsAnalysisResponse.Tickers a))
    (Bind.serialize_string_list (NewsAnalysisResponse.Entities a))
    (NewsAnalysisResponse.Summary a)
    (NewsAnalysisResponse.Confidence a) t.

(** [HandleNewsSignal] called on each signal in turn. *)
Definition handle_all (xs : list SignalData.t) (st : Workflow.state) : Workflow.state :=
  fold_left (fun st sd => Workflow.handle_news_signal sd st) xs st.

End Batches.

(* ------------------------------------------------------------------ *)
(** ** Computations local to the clock and the table *)

Module Frames.
Import Runtime Listener.

(** The clock and the table of a world, with an empty log and queue. *)
Definition base (w : World) : World := mkWorld [] (w_clock w) (w_db w) [].

(** [w0]'s log appended to [w]'s, with [w0]'s clock and table and [w]'s
    queue. *)
Definition frame (w w0 : World) : World :=
  mkWorld (w_events w ++ w_events w0) (w_clock w0) (w_db w0) (w_queue w).

(** A computation that reads only the clock and the table, appends to the
    log and leaves the queue alone. *)
Definition framed {A} (m : M A) : Prop :=
  forall w, m w = (fst (m (base w)), frame w (snd (m (base w)))).

End Frames.

(* ------------------------------------------------------------------ *)
(** ** JSON values denoted by serialized lists *)

Module Readback.
Import Json.

(** The JSON value of a [List<string>] element and of the list. *)
Definition json_of_item (o : option string) : json :=
  match o with Some s => JStr s | None => JNull end.

Definition json_of_list (l : option (list (option string))) : json :=
  match l with Some xs => JArr (map json_of_item xs) | None => JNull end.

(** The member names [NewsAnalysisResponse] binds. *)
Definition analysis_member_names : list string :=
  ["tickers"; "sector"; "industry"; "sentiment"; "entities"; "summary"; "confidence"].

End Readback.


(* ------------------------------------------------------------------ *)
(** ** Concrete inputs *)

Module Scenarios.
Import Runtime Listener.

(** Writes JSON text with [\'] for the double quote. *)
Definition dq (s : string) : string :=
  string_of_list_ascii
    (map (fun c => if Ascii.eqb c "'"%char then ascii_of_nat 34 else c)
       (list_ascii_of_string s)).

Definition news_n1 : RSSFeedRecord.t :=
  RSSFeedRecord.mk "Central bank raises key rate by 0.25%" "The key rate is now 16.25%"
    "https://example.org/n1" "2025-09-12T10:00:00Z" "Reuters" "n1" None (Some "positive").

Definition signal_n1 : SignalData.t := SignalData.mk "n1" "2025-09-12T10:00:05Z" news_n1.

Definition world0 : World := mkWorld [] 0 ∅ [].

(** A chat-completion reply whose message content is [content]. *)
Definition reply_with (content : string) : string :=
  dq "{'id':'gen-1','choices':[{'index':0,'message':{'role':'assistant','content':"
  +:+ content +:+ dq "}}]}".

Definition clock0 (n : nat) : Z := (638900000000000000 + Z.of_nat n)%Z.

Definition no_date (_ : string) : option Z := None.

(** A reply whose analysis has a confidence of 1.5. *)
Definition content_high_confidence : string :=
  dq "'{\'tickers\':[\'SBER\'],\'sector\':\'Finance\',\'sentiment\':\'positive\',\'confidence\':1.5}'".




(** The endpoint cannot be reached. *)
Definition http_down (_ : RSSFeedRecord.t) : HttpOutcome := HttpThrows HttpRequestException.

(** The world with one news item waiting. *)
Definition world_one_queued : World := mkWorld [] 0 ∅ [signal_n1].

(** Two enriched records for the same news item, with different analyses. *)
Definition record_first : AnalyzedNewsRecord.t :=
  AnalyzedNewsRecord.mk "n1" "Central bank raises key rate by 0.25%" "The key rate is now 16.25%"
    "https://example.org/n1" 100 "Reuters" "" "positive" (Some "positive") (Some "Finance")
    (Some "Banks") (dq "['SBER']") "[]" (Some "Rate hike") (9 # 10) 200.


(** The catalog a first [InitializeDatabaseAsync] builds on an empty store. *)
Definition catalog_after_init : gmap string Schema.relation :=
  match Schema.initialize_database ∅ with Ok c => c | Throw _ => ∅ end.

(** A signal whose [published_at] the parser reads as tick 42. *)
Definition date_42 (_ : string) : option Z := Some 42%Z.

(** A line feed. *)
Definition nl : string := String (ascii_of_nat 10) EmptyString.





(** A user-prompt template with the four placeholders. *)
Definition template_pieces : list Prompts.piece :=
  [Prompts.Text "Title: "; Prompts.Hole Prompts.PTitle;
   Prompts.Text (nl +:+ "Description: "); Prompts.Hole Prompts.PDescription;
   Prompts.Text (nl +:+ "Source: "); Prompts.Hole Prompts.PSource;
   Prompts.Text (nl +:+ "Published: "); Prompts.Hole Prompts.PPublishedAt].

(** A reply whose analysis gives its confidence as a string. *)
Definition content_string_confidence : string :=
  dq "'{\'tickers\':[\'SBER\'],\'sector\':\'Finance\',\'confidence\':\'0.9\'}'".

Definition http_string_confidence (_ : RSSFeedRecord.t) : HttpOutcome :=
  HttpReply 200 (reply_with content_string_confidence).

(** The columns of a table created before the [industry] column existed. *)
Definition legacy_columns : list string :=
  ["id"; "title"; "description"; "link"; "published_at"; "source"; "category";
   "original_sentiment"; "analyzed_sentiment"; "sector"; "tickers";
   "entities"; "summary"; "confidence"; "analyzed_at"].

Definition catalog_legacy : gmap string Schema.relation :=
  {[ "analyzed_news" := Schema.Table legacy_columns ]}.

(** A table with only three of the columns. *)
Definition catalog_partial : gmap string Schema.relation :=
  {[ "analyzed_news" := Schema.Table ["id"; "title"; "link"] ]}.

(** A second news item. *)
Definition news_n2 : RSSFeedRecord.t :=
  RSSFeedRecord.mk "Oil prices fall" "Brent is down 2%" "https://example.org/n2"
    "2025-09-12T11:00:00Z" "Interfax" "n2" (Some "markets") None.

Definition signal_n2 : SignalData.t := SignalData.mk "n2" "2025-09-12T11:00:05Z" news_n2.

(** The world with both news items waiting, [n1] first. *)
Definition world_two_queued : World := mkWorld [] 0 ∅ [signal_n1; signal_n2].

(** The endpoint cannot be reached for [n1] and answers for the others. *)
Definition http_mixed (r : RSSFeedRecord.t) : HttpOutcome :=
  if String.eqb (RSSFeedRecord.Id r) "n1" then HttpThrows HttpRequestException
  else HttpReply 200 (reply_with content_high_confidence).



(** A sector name of 101 characters. *)
Definition long_sector : string := String.concat "" (repeat "x" 101).

(** Second records for [n1]: one whose sector does not fit its column,
    one whose confidence has more than 4 decimal places. *)
Definition record_second_long_sector : AnalyzedNewsRecord.t :=
  AnalyzedNewsRecord.mk "n1" "Rate decision (edited)" "" "https://example.org/n1-b" 300 "TASS"
    "economy" "neutral" (Some "neutral") (Some long_sector) (Some "Banks") "[]" "[]"
    (Some "Rate unchanged") (95 # 100) 400.

Definition record_second_third : AnalyzedNewsRecord.t :=
  AnalyzedNewsRecord.mk "n1" "Rate decision (edited)" "" "https://example.org/n1-b" 300 "TASS"
    "economy" "neutral" (Some "neutral") (Some "Finance") (Some "Banks") "[]" "[]"
    (Some "Rate unchanged") (1 # 3) 400.

End Scenarios.

(* ================================================================== *)
(** * Properties *)

Import Runtime Json Bind Listener.

(* ------------------------------------------------------------------ *)
(** ** Signal receiver ([HandleNewsSignal]) *)

(** C2 (counterexample): an envelope whose id is empty is not rejected:
    it is recorded and the received count goes from 0 to 1. *)
Lemma C2_empty_id_accepted :
  let sd := SignalData.mk "" "" Scenarios.news_n1 in
  let st := Workflow.handle_news_signal sd (Workflow.mk []) in
  Workflow.received_signals st = [sd] /\ Workflow.get_signals_count st = 1.
Proof. split; reflexivity. Qed.

(** C2 (amended): [HandleNewsSignal] validates nothing: every envelope,
    whatever its id and title (empty ones included), is appended to the
    received signals and the received count grows by one. *)
Theorem C2_handle_news_signal_appends (sd : SignalData.t) (st : Workflow.state) :
  Workflow.received_signals (Workflow.handle_news_signal sd st)
    = Workflow.received_signals st ++ [sd] /\
  Workflow.get_signals_count (Workflow.handle_news_signal sd st)
    = S (Workflow.get_signals_count st).
Proof.
  unfold Workflow.get_signals_count, Workflow.handle_news_signal; simpl.
  rewrite length_app; simpl. split; [reflexivity | lia].
Qed.

(** C3 (counterexample): there is no capacity at which submitting leaves
    the signals unchanged. *)
Lemma C3_no_capacity :
  ~ (exists cap : nat, forall (sd : SignalData.t) (st : Workflow.state),
        cap <= Workflow.get_signals_count st ->
        Workflow.handle_news_signal sd st = st).
Proof.
  intros [cap Hcap].
  set (st := Workflow.mk (repeat Scenarios.signal_n1 cap)).
  assert (Hlen : Workflow.get_signals_count st = cap)
    by (unfold Workflow.get_signals_count; simpl; apply repeat_length).
  specialize (Hcap Scenarios.signal_n1 st ltac:(lia)).
  apply (f_equal Workflow.get_signals_count) in Hcap.
  unfold Workflow.get_signals_count in *; simpl in *.
  rewrite length_app in Hcap; simpl in Hcap. lia.
Qed.

(** C3 (amended): the received signals are unbounded: at any length, a
    submit succeeds, grows the count by one and stores the envelope last. *)
Theorem C3_submit_never_full (sd : SignalData.t) (st : Workflow.state) :
  Workflow.get_signals_count (Workflow.handle_news_signal sd st)
    = S (Workflow.get_signals_count st) /\
  last (Workflow.received_signals (Workflow.handle_news_signal sd st)) = Some sd /\
  Workflow.get_latest_signals 1 (Workflow.handle_news_signal sd st) = [sd].
Proof.
  unfold Workflow.get_signals_count, Workflow.get_latest_signals,
    Workflow.handle_news_signal; simpl.
  rewrite length_app; simpl. split; [lia|]. split.
  - apply last_snoc.
  - replace (length (Workflow.received_signals st) + 1 - 1)
      with (length (Workflow.received_signals st)) by lia.
    rewrite drop_app_length. reflexivity.
Qed.

(* ------------------------------------------------------------------ *)
(** ** Startup identity ([Worker.ExecuteAsync]) *)

(** C4: once the fixed id is taken, the routine attaches to a [Running]
    instance without starting one; on a terminal status
    (Completed, Canceled, Terminated, Failed), and when the status query
    throws, it starts a fresh instance under the id suffixed with a
    timestamp. *)
Theorem C4_startup_decision (start : string -> Startup.StartOutcome)
    (stamp1 stamp2 : string) :
  start Startup.workflow_id = Startup.AlreadyStarted ->
  Startup.execute_startup start (Some Startup.Running) stamp1 stamp2
    = ([Startup.workflow_id], Startup.Attached Startup.workflow_id) /\
  (forall status,
     status = Startup.Completed \/ status = Startup.Canceled \/
     status = Startup.Terminated \/ status = Startup.Failed ->
     start (Startup.suffixed_id stamp1) = Startup.Started ->
     Startup.execute_startup start (Some status) stamp1 stamp2
       = ([Startup.workflow_id; Startup.suffixed_id stamp1],
          Startup.Launched (Startup.suffixed_id stamp1))) /\
  (start (Startup.suffixed_id stamp2) = Startup.Started ->
   Startup.execute_startup start None stamp1 stamp2
     = ([Startup.workflow_id; Startup.suffixed_id stamp2],
        Startup.Launched (Startup.suffixed_id stamp2))).
Proof.
  intros Hid. unfold Startup.execute_startup, Startup.start_fallback.
  rewrite Hid. split; [reflexivity|]. split.
  - intros status Hst Hnew.
    destruct Hst as [-> | [-> | [-> | ->]]]; simpl; rewrite Hnew; reflexivity.
  - intros Hnew. rewrite Hnew. reflexivity.
Qed.

(* ------------------------------------------------------------------ *)
(** ** Persistence gateway ([SaveAnalyzedNewsAsync], [InitializeDatabaseAsync]) *)

Module TableFacts.
Import Table.









End TableFacts.

Module SaveFacts.
Import Batches TableFacts.





End SaveFacts.



(** C5 (counterexample): a second call is not always applied as given: a
    sector of 101 characters makes it fail, leaving the first call's
    enrichment in place, and a confidence of 1/3 is stored as 0.3333. *)
Lemma C5_second_call_not_applied :
  (exists row,
     Batches.save_or_keep Scenarios.record_second_long_sector
       (Batches.save_or_keep Scenarios.record_first ∅) !! "n1" = Some row /\
     Row.sector row = Some "Finance" /\
     Row.sector row <> AnalyzedNewsRecord.Sector Scenarios.record_second_long_sector) /\
  (exists row,
     Batches.save_or_keep Scenarios.record_second_third
       (Batches.save_or_keep Scenarios.record_first ∅) !! "n1" = Some row /\
     Row.confidence row = 3333 # 10000 /\
     ~ (Row.confidence row == AnalyzedNewsRecord.Confidence Scenarios.record_second_third)).
Proof.
  split; eexists; (split; [vm_compute; reflexivity|]); split.
  - reflexivity.
  - vm_compute. discriminate.
  - reflexivity.
  - unfold Qeq. simpl. lia.
Qed.

Module SchemaFacts.
Import Schema.

(** [c'] keeps every relation of [c], and every column of its tables. *)
Definition extends (c c' : gmap string relation) : Prop :=
  forall k, (is_Some (c !! k) -> is_Some (c' !! k)) /\
    (forall cols, c !! k = Some (Table cols) ->
       exists cols', c' !! k = Some (Table cols') /\ cols ⊆ cols').

(** What a statement leaves established. *)
Definition holds (s : stmt) (c : gmap string relation) : Prop :=
  match s with
  | CreateTableIfNotExists n _ _ => is_Some (c !! n)
  | AlterTableAddColumnIfNotExists t col =>
      exists cols, c !! t = Some (Table cols) /\ col ∈ cols
  | CreateIndexIfNotExists n _ _ => is_Some (c !! n)
  end.

(** The candidate names of the primary-key index are pairwise distinct. *)
Lemma append_cancel_l (a b c : string) : a +:+ b = a +:+ c -> b = c.
Proof. induction a as [|x a IH]; simpl; [auto|]. intros [= H]. auto. Qed.

Lemma pretty_N_go_nonempty x s : s <> "" -> pretty_N_go x s <> "".
Proof.
  revert s. induction (N.lt_wf_0 x) as [x _ IH]; intros s Hs.
  destruct (decide (x = 0%N)) as [->|Hx]; [rewrite pretty_N_go_0; exact Hs|].
  rewrite pretty_N_go_step by lia. apply IH; [apply N.div_lt; lia | discriminate].
Qed.

Lemma pretty_succ_nonempty (n : nat) : pretty (S n) <> "".
Proof.
  change (pretty (S n)) with (pretty (N.of_nat (S n))).
  cbv [pretty pretty_N]. destruct (decide _) as [H|H]; [lia|].
  rewrite pretty_N_go_step by lia. apply pretty_N_go_nonempty. discriminate.
Qed.

Lemma pkey_candidate_inj t p q : pkey_candidate t p = pkey_candidate t q -> p = q.
Proof.
  unfold pkey_candidate. intros H. apply append_cancel_l, append_cancel_l in H.
  destruct p as [|p], q as [|q]; [reflexivity | | |].
  - exfalso. apply (pretty_succ_nonempty q). congruence.
  - exfalso. apply (pretty_succ_nonempty p). congruence.
  - apply (inj pretty) in H. exact H.
Qed.

Lemma choose_from_spec c t pass fuel :
  c !! choose_from c t pass fuel = None \/
  (choose_from c t pass fuel = pkey_candidate t (pass + fuel) /\
   forall i, pass <= i < pass + fuel -> is_Some (c !! pkey_candidate t i)).
Proof.
  revert pass. induction fuel as [|f IH]; intros pass; simpl.
  - right. rewrite Nat.add_0_r. split; [reflexivity | intros; lia].
  - destruct (c !! pkey_candidate t pass) eqn:E; [|left; exact E].
    destruct (IH (S pass)) as [H|[H1 H2]]; [left; exact H|right].
    split; [rewrite H1; f_equal; lia|].
    intros i Hi. destruct (decide (i = pass)) as [->|]; [rewrite E; eauto | apply H2; lia].
Qed.


(** The name chosen for the primary-key index is free: [size c + 1]
    distinct candidates cannot all be taken. *)
Lemma choose_pkey_free c t : c !! choose_pkey_name c t = None.
Proof.
  unfold choose_pkey_name.
  destruct (choose_from_spec c t 0 (size c)) as [H|[H1 H2]]; [exact H|].
  rewrite H1. simpl.
  destruct (c !! pkey_candidate t (size c)) as [v|] eqn:E; [exfalso|reflexivity].
  set (l := pkey_candidate t <$> seq 0 (S (size c))).
  assert (Hnd : NoDup l).
  { apply NoDup_fmap_2_strong; [|apply NoDup_seq].
    intros x y _ _. apply pkey_candidate_inj. }
  assert (Hsub : (list_to_set l : gset string) ⊆ dom c).
  { intros x Hx. apply elem_of_list_to_set in Hx. apply elem_of_dom.
    unfold l in Hx. apply list_elem_of_fmap in Hx as (i & -> & Hi).
    apply elem_of_seq in Hi. destruct (decide (i = size c)) as [->|Hne]; [rewrite E; eauto|].
    apply H2. lia. }
  apply subseteq_size in Hsub. rewrite size_list_to_set in Hsub by exact Hnd.
  rewrite size_dom in Hsub. unfold l in Hsub. rewrite length_fmap, length_seq in Hsub. lia.
Qed.

Lemma extends_refl c : extends c c.
Proof. intros k. split; [done|]. intros cols H. exists cols. split; [done|set_solver]. Qed.

Lemma extends_trans c1 c2 c3 : extends c1 c2 -> extends c2 c3 -> extends c1 c3.
Proof.
  intros H12 H23 k. destruct (H12 k) as [A1 B1], (H23 k) as [A2 B2].
  split; [auto|]. intros cols H.
  destruct (B1 cols H) as [cols2 [H2 S2]]. destruct (B2 cols2 H2) as [cols3 [H3 S3]].
  exists cols3. split; [done|set_solver].
Qed.

Lemma extends_insert_new c n v : c !! n = None -> extends c (<[n := v]> c).
Proof.
  intros Hn k. destruct (decide (k = n)) as [->|Hne].
  - rewrite Hn. split; [intros [? ?]; discriminate|]. intros ? ?; discriminate.
  - rewrite lookup_insert_ne by congruence. split; [done|].
    intros cols H. exists cols. split; [done|set_solver].
Qed.

Lemma exec_extends s c c' : exec s c = Ok c' -> extends c c' /\ holds s c'.
Proof.
  destruct s as [n cols pk | t col | n t col]; simpl.
  - destruct (c !! n) eqn:Hn; intros [= <-].
    + split; [apply extends_refl|]. simpl. rewrite Hn. done.
    + pose proof (choose_pkey_free (<[n := Table cols]> c) n) as Hp.
      split.
      * eapply extends_trans; [by apply extends_insert_new | by apply extends_insert_new].
      * simpl. destruct (decide (choose_pkey_name (<[n := Table cols]> c) n = n)) as [E|E].
        -- rewrite E. rewrite lookup_insert_eq. done.
        -- rewrite lookup_insert_ne by congruence. rewrite lookup_insert_eq. done.
  - destruct (c !! t) as [[cols|tb cl]|] eqn:Ht; try discriminate.
    case_bool_decide as Hin; intros [= <-].
    + split; [apply extends_refl|]. exists cols. done.
    + split.
      * intros k. destruct (decide (k = t)) as [->|Hne].
        -- rewrite Ht, lookup_insert_eq. split; [done|].
           intros cols0 [= <-]. exists (cols ++ [col]). split; [done|set_solver].
        -- rewrite lookup_insert_ne by congruence. split; [done|].
           intros cols0 H. exists cols0. split; [done|set_solver].
      * exists (cols ++ [col]). rewrite lookup_insert_eq. split; [done|set_solver].
  - destruct (c !! n) eqn:Hn.
    + intros [= <-]. split; [apply extends_refl|]. simpl. rewrite Hn. done.
    + destruct (c !! t) as [[cols|tb cl]|] eqn:Ht; try discriminate.
      case_bool_decide; [|discriminate]. intros [= <-].
      split; [by apply extends_insert_new|]. simpl. rewrite lookup_insert_eq. done.
Qed.

Lemma holds_extends s c c' : holds s c -> extends c c' -> holds s c'.
Proof.
  intros Hh Hx. destruct s as [n cols pk | t col | n t col]; simpl in *.
  - apply (proj1 (Hx n)), Hh.
  - destruct Hh as [cols [Hc Hin]]. destruct (proj2 (Hx t) cols Hc) as [cols' [Hc' Hs]].
    exists cols'. split; [done|set_solver].
  - apply (proj1 (Hx n)), Hh.
Qed.

Lemma holds_exec s c : holds s c -> exec s c = Ok c.
Proof.
  destruct s as [n cols pk | t col | n t col]; simpl.
  - intros [v Hv]. rewrite Hv. reflexivity.
  - intros [cols [Hc Hin]]. rewrite Hc. rewrite bool_decide_true by done. reflexivity.
  - intros [v Hv]. rewrite Hv. reflexivity.
Qed.

Lemma exec_all_extends ss c c' :
  exec_all ss c = Ok c' -> extends c c' /\ Forall (fun s => holds s c') ss.
Proof.
  revert c. induction ss as [|s ss IH]; intros c; simpl.
  - intros [= <-]. split; [apply extends_refl | constructor].
  - destruct (exec s c) as [c1|e] eqn:Hs; simpl; [|discriminate].
    intros Hrest. destruct (exec_extends _ _ _ Hs) as [X1 H1].
    destruct (IH _ Hrest) as [X2 H2]. split.
    + eapply extends_trans; eauto.
    + constructor; [eapply holds_extends; eauto | exact H2].
Qed.

Lemma exec_all_holds ss c : Forall (fun s => holds s c) ss -> exec_all ss c = Ok c.
Proof.
  induction 1 as [|s ss Hs _ IH]; simpl; [reflexivity|].
  rewrite (holds_exec _ _ Hs). simpl. exact IH.
Qed.

End SchemaFacts.
(** C6: [InitializeDatabaseAsync] is idempotent: whenever it succeeds, a
    second run on the resulting catalog succeeds and changes nothing, and
    the first run kept every relation and column already present. *)
Theorem C6_initialize_idempotent (c c' : gmap string Schema.relation) :
  Schema.initialize_database c = Ok c' ->
  Schema.initialize_database c' = Ok c' /\ SchemaFacts.extends c c'.
Proof.
  unfold Schema.initialize_database. intros H.
  destruct (SchemaFacts.exec_all_extends _ _ _ H) as [Hx Hh].
  split; [apply SchemaFacts.exec_all_holds, Hh | exact Hx].
Qed.

(* ------------------------------------------------------------------ *)
(** ** Record conversion ([ConvertToAnalyzedNewsRecord]) *)

(** C9: the published-at value written for a news item is the parsed
    [published_at] string when it is non-empty and parses; otherwise it is
    the current time: the [DateTime.UtcNow] read when the conversion starts
    (empty string) or the one read after the failed parse. The row built
    for the upsert carries the same value. *)
Theorem C9_published_at (clock : nat -> Z) (date_try_parse : string -> option Z)
    (sd : SignalData.t) (a : NewsAnalysisResponse.t) (w : World) :
  let s := RSSFeedRecord.PublishedDate (SignalData.Data sd) in
  exists r w',
    convert_to_analyzed_news_record clock date_try_parse sd a w = (Ok r, w') /\
    Row.published_at (Table.row_of_record r) = AnalyzedNewsRecord.PublishedAt r /\
    (s = "" -> AnalyzedNewsRecord.PublishedAt r = clock (w_clock w)) /\
    (forall t, s <> "" -> date_try_parse s = Some t -> AnalyzedNewsRecord.PublishedAt r = t) /\
    (s <> "" -> date_try_parse s = None ->
       AnalyzedNewsRecord.PublishedAt r = clock (S (w_clock w))).
Proof.
  intros s. unfold convert_to_analyzed_news_record, utc_now.
  cbv [mbind M_bind mret M_ret]. fold s.
  destruct (String.eqb_spec s "") as [Hs|Hs].
  - eexists _, _. split; [reflexivity|]. simpl.
    split; [reflexivity|]. split; [reflexivity|]. split; intros; congruence.
  - destruct (date_try_parse s) as [t|] eqn:Ht.
    + eexists _, _. split; [reflexivity|]. simpl.
      split; [reflexivity|]. split; [intros; congruence|].
      split; [intros t' _ [= ->]; reflexivity | intros _ [=]].
    + eexists _, _. split; [reflexivity|]. simpl.
      split; [reflexivity|]. split; [intros; congruence|].
      split; [intros t' _ [=] | reflexivity].
Qed.


(* ------------------------------------------------------------------ *)
(** ** Enrichment adapter and worker loop *)

Module FrameFacts.
Import Frames.

Lemma frame_base w : frame w (base w) = w.
Proof. destruct w as [ev k db q]. unfold frame, base. cbn. rewrite app_nil_r. reflexivity. Qed.

Lemma base_frame w w0 : base (frame w w0) = base w0.
Proof. reflexivity. Qed.

Lemma frame_frame w w0 w1 : frame (frame w w0) w1 = frame w (frame w0 w1).
Proof. unfold frame. cbn. rewrite app_assoc. reflexivity. Qed.

Lemma framed_ret {A} (a : A) : framed (mret a).
Proof. intros w. cbv [mret M_ret]. cbn [fst snd]. rewrite frame_base. reflexivity. Qed.

Lemma framed_bind {A B} (m : M A) (k : A -> M B) :
  framed m -> (forall a, framed (k a)) -> framed (m ≫= k).
Proof.
  intros Hm Hk w. cbv [mbind M_bind]. rewrite (Hm w).
  destruct (m (base w)) as [[a|e] w0]; cbn [fst snd].
  - rewrite (Hk a (frame w w0)), (Hk a w0), base_frame. cbn [fst snd].
    rewrite frame_frame. reflexivity.
  - reflexivity.
Qed.

Lemma framed_try_catch {A} (m : M A) (h : exn -> M A) :
  framed m -> (forall e, framed (h e)) -> framed (try_catch m h).
Proof.
  intros Hm Hh w. unfold try_catch. rewrite (Hm w).
  destruct (m (base w)) as [[a|e] w0]; cbn [fst snd].
  - reflexivity.
  - rewrite (Hh e (frame w w0)), (Hh e w0), base_frame. cbn [fst snd].
    rewrite frame_frame. reflexivity.
Qed.

Lemma framed_emit e : framed (emit e).
Proof. intros w. reflexivity. Qed.

Lemma framed_log lvl what title : framed (log lvl what title).
Proof. apply framed_emit. Qed.

Lemma framed_task_delay s : framed (task_delay s).
Proof. apply framed_emit. Qed.

Lemma framed_throw {A} e : framed (@throw A e).
Proof. intros w. cbv [throw]. cbn [fst snd]. rewrite frame_base. reflexivity. Qed.

Lemma framed_lift {A} (x : Exc A) : framed (lift x).
Proof. intros w. cbv [lift]. cbn [fst snd]. rewrite frame_base. reflexivity. Qed.

Lemma framed_utc_now clock : framed (utc_now clock).
Proof. intros w. unfold utc_now, frame, base. cbn. rewrite app_nil_r. reflexivity. Qed.

Lemma framed_exec_upsert r : framed (exec_upsert r).
Proof.
  intros w. unfold exec_upsert. change (w_db (base w)) with (w_db w).
  destruct (Table.upsert r (w_db w)); cbn [fst snd].
  - unfold frame, base. cbn. rewrite app_nil_r. reflexivity.
  - rewrite frame_base. reflexivity.
Qed.

Create HintDb framed.
#[local] Hint Resolve framed_ret framed_emit framed_log framed_task_delay framed_throw
  framed_lift framed_utc_now framed_exec_upsert : framed.

Ltac framed_step :=
  match goal with
  | |- framed (mbind _ _) => apply framed_bind; [|intros ?; cbv beta]
  | |- framed (try_catch _ _) => apply framed_try_catch; [|intros ?; cbv beta]
  | |- framed (let _ := _ in _) => cbv zeta
  | |- framed (match ?x with _ => _ end) => destruct x
  | |- framed _ => solve [auto with framed]
  end.

Ltac framed_tac := repeat framed_step.

Lemma framed_analyze llm r : framed (analyze_news_async llm r).
Proof. unfold analyze_news_async, analyze_news_try_block. framed_tac. Qed.
#[local] Hint Resolve framed_analyze : framed.

Lemma framed_convert clock date_try_parse sd a :
  framed (convert_to_analyzed_news_record clock date_try_parse sd a).
Proof. unfold convert_to_analyzed_news_record. framed_tac. Qed.
#[local] Hint Resolve framed_convert : framed.

Lemma framed_save r : framed (save_analyzed_news_async r).
Proof. unfold save_analyzed_news_async. framed_tac. Qed.
#[local] Hint Resolve framed_save : framed.

Lemma framed_process clock date_try_parse llm sd :
  framed (process_news_signal clock date_try_parse llm sd).
Proof. unfold process_news_signal. framed_tac. Qed.

Lemma framed_activity clock date_try_parse llm sd :
  framed (Activity.analyze_and_save_news_async clock date_try_parse llm sd).
Proof. unfold Activity.analyze_and_save_news_async. framed_tac. Qed.

End FrameFacts.

Import Frames.

Lemma analyze_news_async_effect llm r w :
  exists res evs,
    analyze_news_async llm r w
      = (Ok res, mkWorld (w_events w ++ evs) (w_clock w) (w_db w) (w_queue w)) /\
    posts evs = [RSSFeedRecord.Title r] /\ null_warnings evs = [].
Proof.
  unfold analyze_news_async, analyze_news_try_block, try_catch, log, emit, throw, lift.
  cbv [mbind M_bind mret M_ret]. simpl.
  destruct (llm r) as [e|status body]; simpl.
  all: try destruct (is_success_status_code status); simpl.
  all: try destruct (deserialize bind_llm_response body) as [l|e]; simpl.
  all: try destruct (first_content l) as [c|]; simpl.
  all: try destruct (deserialize bind_news_analysis c) as [a|e]; simpl.
  all: eexists _, _; split; [rewrite <- !app_assoc; reflexivity | split; reflexivity].
Qed.


(** Message content whose deserialization throws yields [null]. *)
Lemma analyze_content_throws llm (r : RSSFeedRecord.t) (w : World) status body resp content e :
  llm r = HttpReply status body ->
  is_success_status_code status = true ->
  deserialize bind_llm_response body = Ok resp ->
  first_content resp = Some content ->
  deserialize bind_news_analysis content = Throw e ->
  fst (analyze_news_async llm r w) = Ok None.
Proof.
  intros Hr Hs Hb Hc Ha.
  unfold analyze_news_async, analyze_news_try_block, try_catch, log, emit, throw, lift.
  cbv [mbind M_bind mret M_ret]. simpl. rewrite Hr, Hs, Hb. simpl. rewrite Hc, Ha. reflexivity.
Qed.





Lemma convert_effect clock date_try_parse sd a w :
  exists p t k,
    convert_to_analyzed_news_record clock date_try_parse sd a w
      = (Ok (Batches.analyzed_record sd a p t), mkWorld (w_events w) k (w_db w) (w_queue w)).
Proof.
  unfold convert_to_analyzed_news_record, utc_now.
  cbv [mbind M_bind mret M_ret]. simpl.
  destruct (String.eqb (RSSFeedRecord.PublishedDate (SignalData.Data sd)) "");
    [|destruct (date_try_parse (RSSFeedRecord.PublishedDate (SignalData.Data sd)))];
    eexists _, _, _; reflexivity.
Qed.

(** An item whose analysis yields [null] is logged and written nowhere. *)
Lemma process_news_signal_none clock date_try_parse llm sd w :
  (forall w', fst (analyze_news_async llm (SignalData.Data sd) w') = Ok None) ->
  exists evs,
    process_news_signal clock date_try_parse llm sd w
      = (Ok tt, mkWorld (w_events w ++ evs) (w_clock w) (w_db w) (w_queue w)) /\
    posts evs = [RSSFeedRecord.Title (SignalData.Data sd)] /\
    null_warnings evs = [RSSFeedRecord.Title (SignalData.Data sd)].
Proof.
  intros Hnone.
  unfold process_news_signal, try_catch, log, emit.
  cbv [mbind M_bind mret M_ret]. simpl.
  match goal with |- context [analyze_news_async llm ?r ?w1] =>
    destruct (analyze_news_async_effect llm r w1) as [res [evs [Heq [Hp Hw]]]];
    pose proof (Hnone w1) as Hres; rewrite Heq in Hres |- * end.
  simpl in Hres. injection Hres as ->. simpl.
  eexists. split; [rewrite <- !app_assoc; reflexivity|].
  unfold posts, null_warnings in *. rewrite !omap_app. simpl. rewrite Hp, Hw. simpl. split; reflexivity.
Qed.


Lemma process_ok clock date_try_parse llm sd w :
  fst (process_news_signal clock date_try_parse llm sd w) = Ok tt.
Proof.
  unfold process_news_signal, try_catch. cbv zeta.
  match goal with |- fst (match ?x with _ => _ end) = _ => destruct x as [[[]|e] w'] end;
    reflexivity.
Qed.

(** [ProcessNewsSignal] posts one request, for the item's title. *)
Lemma process_posts clock date_try_parse llm sd w :
  exists evs,
    w_events (snd (process_news_signal clock date_try_parse llm sd w)) = w_events w ++ evs /\
    posts evs = [RSSFeedRecord.Title (SignalData.Data sd)].
Proof.
  unfold process_news_signal, try_catch, log, emit.
  cbv [mbind M_bind mret M_ret]. simpl.
  match goal with |- context [analyze_news_async llm ?r ?w1] =>
    destruct (analyze_news_async_effect llm r w1) as [res [evs [Heq [Hp _]]]];
    rewrite Heq end.
  simpl. destruct res as [a|]; simpl.
  - match goal with |- context [convert_to_analyzed_news_record clock date_try_parse sd a ?w2] =>
      destruct (convert_effect clock date_try_parse sd a w2) as [p [t [k Hc]]];
      rewrite Hc end.
    unfold save_analyzed_news_async, exec_upsert, try_catch, log, emit, throw.
    cbv [mbind M_bind mret M_ret]. simpl.
    destruct (Table.upsert (Batches.analyzed_record sd a p t) (w_db w)) as [db'|e]; simpl.
    all: eexists; split; [rewrite <- !app_assoc; reflexivity|].
    all: unfold posts in *; rewrite !omap_app; simpl; rewrite Hp; reflexivity.
  - eexists; split; [rewrite <- !app_assoc; reflexivity|].
    unfold posts in *; rewrite !omap_app; simpl; rewrite Hp; reflexivity.
Qed.

Lemma iteration_step clock date_try_parse llm w sd rest :
  w_queue w = sd :: rest ->
  process_news_queue_iteration clock date_try_parse llm w
    = (Ok tt, frame (mkWorld (w_events w) (w_clock w) (w_db w) rest)
                    (snd (process_news_signal clock date_try_parse llm sd (base w)))).
Proof.
  intros Hq. unfold process_news_queue_iteration, try_catch.
  cbv [mbind M_bind]. unfold try_dequeue_news. rewrite Hq.
  rewrite (FrameFacts.framed_process clock date_try_parse llm sd
             (mkWorld (w_events w) (w_clock w) (w_db w) rest)).
  change (base (mkWorld (w_events w) (w_clock w) (w_db w) rest)) with (base w).
  rewrite process_ok. reflexivity.
Qed.

Lemma iteration_ok clock date_try_parse llm w :
  exists w', process_news_queue_iteration clock date_try_parse llm w = (Ok tt, w').
Proof.
  unfold process_news_queue_iteration, try_catch.
  match goal with |- exists _, match ?x with _ => _ end = _ =>
    destruct x as [[[]|e] w'] end; [eauto|].
  unfold log, emit, task_delay. cbv [mbind M_bind mret M_ret]. eauto.
Qed.

Lemma process_news_queue_keeps_running clock date_try_parse llm n w :
  fst (process_news_queue clock date_try_parse llm (repeat false n) w) = Ok StillRunning.
Proof.
  revert w. induction n as [|n IH]; intros w; [reflexivity|].
  simpl. cbv [mbind M_bind].
  destruct (iteration_ok clock date_try_parse llm w) as [w' ->]. apply IH.
Qed.

Lemma loop_app clock date_try_parse llm a b w :
  process_news_queue clock date_try_parse llm (repeat false (a + b)) w
  = process_news_queue clock date_try_parse llm (repeat false b)
      (snd (process_news_queue clock date_try_parse llm (repeat false a) w)).
Proof.
  revert w. induction a as [|a IH]; intros w; [reflexivity|].
  simpl. cbv [mbind M_bind].
  destruct (iteration_ok clock date_try_parse llm w) as [w' ->]. apply IH.
Qed.

(** The passes over the first items of the queue: their effect on the
    log, the clock and the table is that of a run on those items alone. *)
Lemma loop_prefix clock date_try_parse llm (pre rest : list SignalData.t) (w : World) :
  w_queue w = pre ++ rest ->
  process_news_queue clock date_try_parse llm (repeat false (length pre)) w
    = (Ok StillRunning,
       mkWorld (w_events w ++ w_events (snd (process_news_queue clock date_try_parse llm
                  (repeat false (length pre)) (mkWorld [] (w_clock w) (w_db w) pre))))
         (w_clock (snd (process_news_queue clock date_try_parse llm
            (repeat false (length pre)) (mkWorld [] (w_clock w) (w_db w) pre))))
         (w_db (snd (process_news_queue clock date_try_parse llm
            (repeat false (length pre)) (mkWorld [] (w_clock w) (w_db w) pre))))
         rest) /\
  posts (w_events (snd (process_news_queue clock date_try_parse llm
            (repeat false (length pre)) (mkWorld [] (w_clock w) (w_db w) pre))))
    = map (fun sd => RSSFeedRecord.Title (SignalData.Data sd)) pre.
Proof.
  revert rest w. induction pre as [|sd pre IH]; intros rest w Hq.
  - simpl in *. split; [|reflexivity].
    destruct w as [ev k db q]; simpl in *; subst. rewrite app_nil_r. reflexivity.
  - cbn [length repeat process_news_queue]. cbv [mbind M_bind].
    rewrite (iteration_step clock date_try_parse llm w sd (pre ++ rest) Hq).
    rewrite (iteration_step clock date_try_parse llm (mkWorld [] (w_clock w) (w_db w) (sd :: pre))
               sd pre eq_refl).
    change (base (mkWorld [] (w_clock w) (w_db w) (sd :: pre))) with (base w).
    set (P := snd (process_news_signal clock date_try_parse llm sd (base w))).
    destruct (process_posts clock date_try_parse llm sd (base w)) as [evs [Hev Hp]].
    fold P in Hev. simpl in Hev. cbn [w_events w_clock w_db w_queue].
    destruct (IH rest (frame (mkWorld (w_events w) (w_clock w) (w_db w) (pre ++ rest)) P) eq_refl)
      as [E1 _].
    destruct (IH [] (frame (mkWorld [] (w_clock w) (w_db w) pre) P) (eq_sym (app_nil_r pre)))
      as [E2 Hp2].
    rewrite E1, E2. cbn [snd w_events w_clock w_db w_queue frame].
    unfold frame in *. cbn [w_events w_clock w_db w_queue] in *.
    split.
    + rewrite <- app_assoc. reflexivity.
    + unfold posts in *. rewrite omap_app, Hp2, Hev. simpl. rewrite Hp. reflexivity.
Qed.
(** C10: [AnalyzeNewsAsync] never lets an exception out: on every input
    it returns a value; whenever its [try] block throws it returns [null];
    and it returns [null] on a transport exception, on a non-success
    status, on an unreadable body, on a reply without message content and
    on message content that is not JSON. *)
Theorem C10_analyze_total llm (r : RSSFeedRecord.t) (w : World) :
  (exists res, fst (analyze_news_async llm r w) = Ok res) /\
  (forall e w', analyze_news_try_block llm r w = (Throw e, w') ->
     fst (analyze_news_async llm r w) = Ok None) /\
  (forall e, llm r = HttpThrows e -> fst (analyze_news_async llm r w) = Ok None) /\
  (forall status body, llm r = HttpReply status body ->
     is_success_status_code status = false -> fst (analyze_news_async llm r w) = Ok None) /\
  (forall status body, llm r = HttpReply status body ->
     is_success_status_code status = true -> parse_json body = None ->
     fst (analyze_news_async llm r w) = Ok None) /\
  (forall status body resp, llm r = HttpReply status body ->
     is_success_status_code status = true ->
     deserialize bind_llm_response body = Ok resp -> first_content resp = None ->
     fst (analyze_news_async llm r w) = Ok None) /\
  (forall status body resp content, llm r = HttpReply status body ->
     is_success_status_code status = true ->
     deserialize bind_llm_response body = Ok resp -> first_content resp = Some content ->
     parse_json content = None ->
     fst (analyze_news_async llm r w) = Ok None).
Proof.
  split; [destruct (analyze_news_async_effect llm r w) as [res [evs [-> _]]]; eauto|].
  split.
  { intros e w' Hb. unfold analyze_news_async, try_catch. rewrite Hb. reflexivity. }
  unfold analyze_news_async, analyze_news_try_block, try_catch, log, emit, throw, lift.
  cbv [mbind M_bind mret M_ret]. simpl.
  split; [intros e -> ; reflexivity|].
  split; [intros status body -> ->; reflexivity|].
  split.
  { intros status body -> -> Hp. unfold deserialize. rewrite Hp. reflexivity. }
  split.
  { intros status body resp -> -> -> ->. reflexivity. }
  intros status body resp content -> -> -> -> Hp. unfold deserialize. rewrite Hp. reflexivity.
Qed.






(** C8: an item whose analysis fails (the adapter returns [null], every
    failure being caught there) is taken from the queue once: one request
    and no retry, a warning logged with its title, and no effect on the
    table or the clock: the run ends with the table and clock of a run on
    the queue without that item. The loop then goes on with the next
    items, keeps running, and never stops by itself while the stopping
    token is not cancelled. *)
Theorem C8_adapter_failures_skipped clock date_try_parse llm
    (pre post : list SignalData.t) (sd : SignalData.t) (w : World) :
  w_queue w = pre ++ sd :: post ->
  (forall w', fst (analyze_news_async llm (SignalData.Data sd) w') = Ok None) ->
  let title := fun x : SignalData.t => RSSFeedRecord.Title (SignalData.Data x) in
  let run := process_news_queue clock date_try_parse llm
               (repeat false (length (pre ++ sd :: post))) w in
  let skip := process_news_queue clock date_try_parse llm
                (repeat false (length (pre ++ post)))
                (mkWorld (w_events w) (w_clock w) (w_db w) (pre ++ post)) in
  fst run = Ok StillRunning /\ w_queue (snd run) = [] /\
  (exists evs_pre evs_sd evs_post,
     w_events (snd run) = w_events w ++ evs_pre ++ evs_sd ++ evs_post /\
     posts evs_pre = map title pre /\
     posts evs_sd = [title sd] /\ null_warnings evs_sd = [title sd] /\
     posts evs_post = map title post) /\
  w_db (snd run) = w_db (snd skip) /\ w_clock (snd run) = w_clock (snd skip) /\
  (forall n w', fst (process_news_queue clock date_try_parse llm (repeat false n) w')
                  = Ok StillRunning).
Proof.
  intros Hq Hnone title run skip.
  assert (Hrun : run = process_news_queue clock date_try_parse llm
                         (repeat false (S (length post)))
                         (snd (process_news_queue clock date_try_parse llm
                                 (repeat false (length pre)) w))).
  { unfold run. rewrite length_app. apply loop_app. }
  assert (Hskip : skip = process_news_queue clock date_try_parse llm
                           (repeat false (length post))
                           (snd (process_news_queue clock date_try_parse llm
                                   (repeat false (length pre))
                                   (mkWorld (w_events w) (w_clock w) (w_db w) (pre ++ post))))).
  { unfold skip. rewrite length_app. apply loop_app. }
  clearbody run skip.
  destruct (loop_prefix clock date_try_parse llm pre (sd :: post) w Hq) as [E1 Hp1].
  destruct (loop_prefix clock date_try_parse llm pre post
              (mkWorld (w_events w) (w_clock w) (w_db w) (pre ++ post)) eq_refl) as [E1' _].
  rewrite E1 in Hrun. rewrite E1' in Hskip. cbn [snd w_events w_clock w_db] in Hrun, Hskip.
  set (V := snd (process_news_queue clock date_try_parse llm (repeat false (length pre))
                   (mkWorld [] (w_clock w) (w_db w) pre))) in *.
  cbn [repeat process_news_queue] in Hrun. cbv [mbind M_bind] in Hrun.
  rewrite (iteration_step clock date_try_parse llm
             (mkWorld (w_events w ++ w_events V) (w_clock V) (w_db V) (sd :: post))
             sd post eq_refl) in Hrun.
  destruct (process_news_signal_none clock date_try_parse llm sd
              (base (mkWorld (w_events w ++ w_events V) (w_clock V) (w_db V) (sd :: post))) Hnone)
    as [evs [Hsd [Hp Hw]]].
  rewrite Hsd in Hrun. unfold frame, base in Hrun. cbn [snd w_events w_clock w_db w_queue app] in Hrun.
  destruct (loop_prefix clock date_try_parse llm post []
              (mkWorld ((w_events w ++ w_events V) ++ evs) (w_clock V) (w_db V) post)
              (eq_sym (app_nil_r post))) as [E2 Hp2].
  destruct (loop_prefix clock date_try_parse llm post []
              (mkWorld (w_events w ++ w_events V) (w_clock V) (w_db V) post)
              (eq_sym (app_nil_r post))) as [E2' _].
  rewrite E2 in Hrun. rewrite E2' in Hskip. cbn [w_clock w_db w_events] in Hrun, Hskip.
  split; [rewrite Hrun; reflexivity|].
  split; [rewrite Hrun; reflexivity|].
  split.
  { exists (w_events V), evs. eexists. rewrite Hrun. cbn [snd w_events].
    rewrite <- !app_assoc. split; [reflexivity|].
    split; [exact Hp1|]. split; [exact Hp|]. split; [exact Hw | exact Hp2]. }
  rewrite Hrun, Hskip. cbn [snd w_db w_clock].
  split; [reflexivity|]. split; [reflexivity|].
  intros n w'. apply process_news_queue_keeps_running.
Qed.
Module PromptFacts.
Import Prompts.

Lemma prefix_app (v b : string) : String.prefix v (v +:+ b) = true.
Proof.
  induction v as [|c v IH]; [destruct b; reflexivity|].
  simpl. destruct (ascii_dec c c) as [_|n]; [exact IH | congruence].
Qed.

Lemma index_cons (v : string) (c : ascii) (s : string) :
  String.index 0 v (String c s)
    = if String.prefix v (String c s) then Some 0 else option_map S (String.index 0 v s).
Proof. simpl. destruct (String.index 0 v s); reflexivity. Qed.


Lemma prefix_cons (a c : ascii) (v s : string) :
  String.prefix (String a v) (String c s)
    = match ascii_dec a c with left _ => String.prefix v s | right _ => false end.
Proof. reflexivity. Qed.

Lemma prefix_cons_ne (a c : ascii) (v s : string) :
  a <> c -> String.prefix (String a v) (String c s) = false.
Proof. intros H. rewrite prefix_cons. destruct (ascii_dec a c); congruence. Qed.











Lemma prefix_length (v s : string) : String.prefix v s = true -> String.length v <= String.length s.
Proof.
  revert s. induction v as [|a v IH]; intros s; [simpl; lia|].
  destruct s as [|c s]; [discriminate|]. rewrite prefix_cons.
  destruct (ascii_dec a c); [|discriminate]. intros H. simpl. apply IH in H. lia.
Qed.

Lemma index_bound (v s : string) n :
  String.index 0 v s = Some n -> n + String.length v <= String.length s.
Proof.
  revert n. induction s as [|c s IH]; intros n.
  - destruct v; simpl; [intros [= <-]; lia | discriminate].
  - rewrite index_cons. destruct (String.prefix v (String c s)) eqn:Hp.
    + intros [= <-]. apply prefix_length in Hp. lia.
    + destruct (String.index 0 v s) as [m|]; simpl; [|discriminate].
      intros [= <-]. specialize (IH m eq_refl). simpl. lia.
Qed.




Lemma replace_skip (o n a b : string) :
  replace_from o n (a +:+ b) (String.length a) = replace_from o n b 0.
Proof. induction a as [|c a IH]; [reflexivity | exact IH]. Qed.

Lemma replace_nobrace (o' n a b : string) :
  "{"%char ∉ list_ascii_of_string a ->
  replace_from (String "{" o') n (a +:+ b) 0 = a +:+ replace_from (String "{" o') n b 0.
Proof.
  induction a as [|c a IH]; intros Ha; [reflexivity|].
  simpl in Ha. apply not_elem_of_cons in Ha as [Hc Ha].
  change (String c a +:+ b) with (String c (a +:+ b)).
  cbn [replace_from]. rewrite prefix_cons_ne by congruence. rewrite (IH Ha). reflexivity.
Qed.

Lemma placeholder_shape (p : placeholder) :
  exists t, placeholder_text p = String "{" t /\ "{"%char ∉ list_ascii_of_string t.
Proof. destruct p; eexists; split; [reflexivity| |reflexivity| |reflexivity| |reflexivity|]; vm_compute; set_solver. Qed.

Lemma prefix_other (p q : placeholder) (rest : string) :
  placeholder_eqb p q = false ->
  String.prefix (placeholder_text q) (placeholder_text p +:+ rest) = false.
Proof. destruct p, q; try discriminate; intros _; reflexivity. Qed.

Lemma replace_render (q : placeholder) (v : string) (ps : list piece) :
  Forall (fun s => "{"%char ∉ list_ascii_of_string s) (texts ps) ->
  replace (placeholder_text q) v (render ps) = render (subst_hole q v ps).
Proof.
  unfold replace. destruct (placeholder_shape q) as (o' & Eq & _). 
  induction ps as [|[s|p] ps IH]; intros Hf; [reflexivity| |].
  - simpl in Hf. apply Forall_cons in Hf as [Hs Hf].
    change (subst_hole q v (Text s :: ps)) with (Text s :: subst_hole q v ps).
    change (render (Text s :: ps)) with (s +:+ render ps).
    change (render (Text s :: subst_hole q v ps)) with (s +:+ render (subst_hole q v ps)).
    rewrite Eq in *. rewrite replace_nobrace by exact Hs.
    rewrite IH by exact Hf. reflexivity.
  - simpl in Hf. specialize (IH Hf).
    change (subst_hole q v (Hole p :: ps))
      with ((if placeholder_eqb p q then Text v else Hole p) :: subst_hole q v ps).
    change (render (Hole p :: ps)) with (placeholder_text p +:+ render ps).
    destruct (placeholder_eqb p q) eqn:Epq.
    + assert (p = q) as -> by (destruct p, q; try discriminate; reflexivity).
      change (render (Text v :: subst_hole q v ps)) with (v +:+ render (subst_hole q v ps)).
      rewrite <- IH. rewrite Eq in *. 
      change (String "{" o' +:+ render ps) with (String "{" (o' +:+ render ps)).
      cbn [replace_from]. rewrite (prefix_app (String "{" o') (render ps) : String.prefix (String "{" o') (String "{" (o' +:+ render ps)) = true). simpl String.length.
      replace (S (String.length o') - 1) with (String.length o') by lia. rewrite replace_skip. reflexivity.
    + change (render (Hole p :: subst_hole q v ps)) with (placeholder_text p +:+ render (subst_hole q v ps)).
      rewrite <- IH.
      destruct (placeholder_shape p) as (t & Ept & Ht).
      pose proof (prefix_other p q (render ps) Epq) as Hpre.
      rewrite Ept in *. rewrite Eq in *.
      change (String "{" t +:+ render ps) with (String "{" (t +:+ render ps)) in *.
      cbn [replace_from]. rewrite Hpre. rewrite replace_nobrace by exact Ht. reflexivity.
Qed.

Lemma texts_subst (P : string -> Prop) q v ps :
  Forall P (texts ps) -> P v -> Forall P (texts (subst_hole q v ps)).
Proof.
  intros Hf Hv. induction ps as [|[s|p] ps IH]; simpl in *; [constructor| |].
  - apply Forall_cons in Hf as [Hs Hf]. constructor; auto.
  - destruct (placeholder_eqb p q); simpl; [constructor|]; auto.
Qed.

Lemma subst_cons q v x l :
  subst_hole q v (x :: l)
  = (match x with Hole p => if placeholder_eqb p q then Text v else x | Text _ => x end)
      :: subst_hole q v l.
Proof. reflexivity. Qed.

Lemma render_filled r ps :
  render (subst_hole PPublishedAt (RSSFeedRecord.PublishedDate r)
            (subst_hole PSource (RSSFeedRecord.Source r)
               (subst_hole PDescription (RSSFeedRecord.Description r)
                  (subst_hole PTitle (RSSFeedRecord.Title r) ps)))) = filled r ps.
Proof.
  induction ps as [|[s|p] ps IH]; [reflexivity| |].
  - change (s +:+ render (subst_hole PPublishedAt (RSSFeedRecord.PublishedDate r)
            (subst_hole PSource (RSSFeedRecord.Source r)
               (subst_hole PDescription (RSSFeedRecord.Description r)
                  (subst_hole PTitle (RSSFeedRecord.Title r) ps)))) = s +:+ filled r ps).
    rewrite IH. reflexivity.
  - rewrite !subst_cons. destruct p; cbn [placeholder_eqb];
    change (render (?x :: ?l)) with (match x with Text s => s | Hole p => placeholder_text p end +:+ render l);
    change (filled r (?x :: ?l)) with (match x with Text s => s | Hole p => field r p end +:+ filled r l);
    cbv beta iota; rewrite IH; reflexivity.
Qed.

(** X4: when neither the template's literal text nor the title, description and source contain a '{', the four chained [Replace] calls fill each placeholder of the template with the record's field. *)
Theorem user_prompt_fills_template (ps : list piece) (r : RSSFeedRecord.t) :
  Forall (fun s => "{"%char ∉ list_ascii_of_string s) (texts ps) ->
  "{"%char ∉ list_ascii_of_string (RSSFeedRecord.Title r) ->
  "{"%char ∉ list_ascii_of_string (RSSFeedRecord.Description r) ->
  "{"%char ∉ list_ascii_of_string (RSSFeedRecord.Source r) ->
  user_prompt (render ps) r = filled r ps.
Proof.
  intros Hp Ht Hd Hs. unfold user_prompt.
  rewrite (replace_render PTitle) by exact Hp.
  rewrite (replace_render PDescription) by (apply texts_subst; assumption).
  rewrite (replace_render PSource) by (repeat apply texts_subst; assumption).
  rewrite (replace_render PPublishedAt) by (repeat apply texts_subst; assumption).
  apply render_filled.
Qed.

End PromptFacts.

Module ServiceFacts.







Lemma iteration_idle clock date_try_parse llm w :
  w_queue w = [] ->
  process_news_queue_iteration clock date_try_parse llm w
    = (Ok tt, mkWorld (w_events w ++ [EvDelay 2]) (w_clock w) (w_db w) []).
Proof.
  intros Hq. unfold process_news_queue_iteration, try_catch.
  cbv [mbind M_bind]. unfold try_dequeue_news. rewrite Hq.
  destruct w; simpl in *; subst. reflexivity.
Qed.

(** X11: on an empty queue each pass of [ProcessNewsQueue] only waits 2 seconds: the table, the clock and the queue are unchanged. *)
Theorem queue_idle clock date_try_parse llm (n : nat) (w : World) :
  w_queue w = [] ->
  process_news_queue clock date_try_parse llm (repeat false n) w
    = (Ok StillRunning,
       mkWorld (w_events w ++ repeat (EvDelay 2) n) (w_clock w) (w_db w) []).
Proof.
  revert w. induction n as [|n IH]; intros w Hq.
  - simpl. rewrite app_nil_r. destruct w; simpl in *; subst. reflexivity.
  - simpl. cbv [mbind M_bind].
    rewrite (iteration_idle clock date_try_parse llm w Hq).
    rewrite IH by reflexivity. simpl. rewrite <- app_assoc. reflexivity.
Qed.

End ServiceFacts.

Module BatchFacts.




End BatchFacts.

Module BindFacts.
Import Readback.

Lemma prop_from_filter {A} (P : string * json -> Prop) `{forall m, Decision (P m)}
    (k : string) (ms : list (string * json)) (cur : A) (b : json -> Exc A) :
  (forall v, P (k, v)) -> prop_from k (filter P ms) cur b = prop_from k ms cur b.
Proof.
  intros HP. revert cur. induction ms as [|[k' v] ms IH]; intros cur; [reflexivity|].
  rewrite filter_cons. destruct (decide (P (k', v))) as [Hp|Hp]; simpl.
  - destruct (String.eqb k' k); [|apply IH]. cbv [mbind Exc_bind].
    destruct (b v); [apply IH | reflexivity].
  - destruct (String.eqb_spec k' k) as [->|]; [exfalso; apply Hp, HP | apply IH].
Qed.

(** X6: deserializing a [NewsAnalysisResponse] ignores the members whose names are none of the seven bound properties. *)
Theorem bind_ignores_unknown_members (ms : list (string * json)) :
  bind_news_analysis ms = bind_news_analysis (filter (fun m => m.1 ∈ analysis_member_names) ms).
Proof.
  unfold bind_news_analysis, prop.
  rewrite !(prop_from_filter (fun m => m.1 ∈ analysis_member_names)) by (intros; simpl; set_solver).
  reflexivity.
Qed.

Lemma prop_from_app {A} k l1 l2 (cur : A) (b : json -> Exc A) :
  prop_from k (l1 ++ l2) cur b = (v ← prop_from k l1 cur b; prop_from k l2 v b).
Proof.
  revert cur. induction l1 as [|m l1 IH]; intros cur; [reflexivity|].
  simpl. destruct (String.eqb m.1 k); [|apply IH].
  cbv [mbind Exc_bind] in *. destruct (b m.2); [apply IH | reflexivity].
Qed.

(** The last member of a name that does not bind makes the property throw. *)
Lemma prop_from_last_throw {A} k ms (cur : A) (b : json -> Exc A) j :
  find_prop k ms = Some j -> (forall x, b j <> Ok x) -> exists e, prop_from k ms cur b = Throw e.
Proof.
  unfold find_prop. induction ms as [|m ms IH] using rev_ind; [discriminate|].
  rewrite fold_left_app, prop_from_app. simpl.
  intros Hf Hb. cbv [mbind Exc_bind].
  destruct (prop_from k ms cur b) as [v|e] eqn:E; [|eauto].
  destruct (String.eqb m.1 k).
  - injection Hf as ->. destruct (b j) as [x|e] eqn:Ej; [exfalso; eapply Hb; eauto | eauto].
  - destruct (IH Hf Hb) as [e He]. congruence.
Qed.

Lemma bind_news_analysis_confidence ms j :
  find_prop "confidence" ms = Some j -> (forall q, j <> JNum q) ->
  exists e, bind_news_analysis ms = Throw e.
Proof.
  intros Hc Hj.
  assert (Hd : forall x, bind_double j <> Ok x).
  { destruct j; try discriminate. exfalso. eapply Hj. reflexivity. }
  destruct (prop_from_last_throw "confidence" ms 0%Q bind_double j Hc Hd) as [e He].
  unfold bind_news_analysis, prop. rewrite He. cbv [mbind Exc_bind].
  repeat match goal with |- exists _, match ?x with _ => _ end = _ => destruct x; [|eauto] end.
  eauto.
Qed.

(** X5: when the message content is a JSON object whose [confidence] member is not a number, the deserialization throws and [AnalyzeNewsAsync] returns null. *)
Theorem analyze_confidence_not_number llm (r : RSSFeedRecord.t) (w : World)
    status body resp content ms j :
  llm r = HttpReply status body ->
  is_success_status_code status = true ->
  deserialize bind_llm_response body = Ok resp ->
  first_content resp = Some content ->
  parse_json content = Some (JObj ms) ->
  find_prop "confidence" ms = Some j -> (forall q, j <> JNum q) ->
  fst (analyze_news_async llm r w) = Ok None.
Proof.
  intros Hr Hs Hb Hc Hp Hf Hj.
  destruct (bind_news_analysis_confidence ms j Hf Hj) as [e He].
  destruct (check_names ms) as [[]|e'] eqn:Hn.
  - eapply analyze_content_throws; eauto. unfold deserialize. rewrite Hp, Hn, He. reflexivity.
  - eapply analyze_content_throws; eauto. unfold deserialize. rewrite Hp, Hn. reflexivity.
Qed.

End BindFacts.

Module SchemaSteps.
Import Schema.

Lemma exec_create_table c n cols pk :
  let pkn := choose_pkey_name (<[n := Table cols]> c) n in
  exists c', exec (CreateTableIfNotExists n cols pk) c = Ok c' /\
    c' !! n = Some (default (Table cols) (c !! n)) /\
    (c !! n = None -> pkn <> n /\ c !! pkn = None /\ c' !! pkn = Some (Index n pk)) /\
    forall k, k <> n -> (c !! n = None -> k <> pkn) -> c' !! k = c !! k.
Proof.
  intros pkn.
  pose proof (SchemaFacts.choose_pkey_free (<[n := Table cols]> c) n) as Hfree. fold pkn in Hfree.
  assert (Hne : pkn <> n).
  { intros E. rewrite E, lookup_insert_eq in Hfree. discriminate. }
  simpl. destruct (c !! n) eqn:Hn; eexists; split; try reflexivity.
  - split; [rewrite Hn; reflexivity|]. split; [discriminate | reflexivity].
  - fold pkn. split.
    { rewrite lookup_insert_ne by congruence. apply lookup_insert_eq. }
    split.
    { intros _. split; [exact Hne|]. split; [|apply lookup_insert_eq].
      rewrite lookup_insert_ne in Hfree by congruence. exact Hfree. }
    intros k Hk Hkp. specialize (Hkp eq_refl).
    rewrite !lookup_insert_ne by congruence. reflexivity.
Qed.

Lemma exec_alter c t col cols :
  c !! t = Some (Table cols) ->
  exists c', exec (AlterTableAddColumnIfNotExists t col) c = Ok c' /\
    c' !! t = Some (Table (if bool_decide (col ∈ cols) then cols else cols ++ [col])) /\
    forall k, k <> t -> c' !! k = c !! k.
Proof.
  intros Ht. simpl. rewrite Ht. case_bool_decide; eexists; split; try reflexivity.
  - split; [exact Ht | reflexivity].
  - split; [apply lookup_insert_eq | intros k Hk; apply lookup_insert_ne; congruence].
Qed.

Lemma exec_index_ok c n t col cols :
  c !! t = Some (Table cols) -> is_Some (c !! n) \/ col ∈ cols ->
  exists c', exec (CreateIndexIfNotExists n t col) c = Ok c' /\
    c' !! n = Some (default (Index t col) (c !! n)) /\
    forall k, k <> n -> c' !! k = c !! k.
Proof.
  intros Ht Hok. simpl. destruct (c !! n) eqn:Hn.
  - eexists. split; [reflexivity|]. split; [rewrite Hn; reflexivity | reflexivity].
  - rewrite Ht. destruct Hok as [[? ?]|Hin]; [discriminate|].
    rewrite bool_decide_true by exact Hin. eexists. split; [reflexivity|].
    split; [apply lookup_insert_eq | intros k Hk; apply lookup_insert_ne; congruence].
Qed.

Lemma exec_index_step c n t col cols :
  c !! t = Some (Table cols) ->
  exec (CreateIndexIfNotExists n t col) c = Throw PostgresException \/
  exists c', exec (CreateIndexIfNotExists n t col) c = Ok c' /\
    forall k, k <> n -> c' !! k = c !! k.
Proof.
  intros Ht. destruct (decide (is_Some (c !! n) \/ col ∈ cols)) as [Hok|Hno].
  - right. destruct (exec_index_ok c n t col cols Ht Hok) as (c' & E & _ & Hk). eauto.
  - left. simpl. destruct (c !! n) eqn:Hn; [exfalso; apply Hno; left; eauto|].
    rewrite Ht, bool_decide_false by tauto. reflexivity.
Qed.

Lemma exec_index_fail c n t col cols :
  c !! t = Some (Table cols) -> c !! n = None -> col ∉ cols ->
  exec (CreateIndexIfNotExists n t col) c = Throw PostgresException.
Proof. intros Ht Hn Hc. simpl. rewrite Hn, Ht, bool_decide_false by exact Hc. reflexivity. Qed.


Lemma industry_cols_not (cols : list string) (col : string) :
  col <> "industry" -> col ∉ cols ->
  col ∉ (if bool_decide ("industry" ∈ cols) then cols else cols ++ ["industry"]).
Proof. intros H1 H2. case_bool_decide; set_solver. Qed.


End SchemaSteps.

Module SchemaResults.
Import Schema SchemaSteps.



(** X14: when the [analyzed_news] table already exists without one of the columns [analyzed_at], [sector] or [analyzed_sentiment], and no relation has the name of the index on it, [InitializeDatabaseAsync] throws. *)
Theorem initialize_database_missing_column (c : gmap string relation) (cols : list string) n col :
  c !! "analyzed_news" = Some (Table cols) ->
  (n, col) ∈ [("idx_analyzed_news_analyzed_at", "analyzed_at");
              ("idx_analyzed_news_sector", "sector");
              ("idx_analyzed_news_sentiment", "analyzed_sentiment")] ->
  c !! n = None -> col ∉ cols ->
  initialize_database c = Throw PostgresException.
Proof.
  intros Hc Hin Hn Hcol.
  destruct (exec_create_table c "analyzed_news" analyzed_news_columns "id") as (c1 & E1 & T1 & _ & K1).
  rewrite Hc in T1. simpl in T1.
  destruct (exec_alter c1 "analyzed_news" "industry" cols T1) as (c2 & E2 & T2 & K2).
  set (cols2 := if bool_decide ("industry" ∈ cols) then cols else cols ++ ["industry"]) in *.
  assert (L2 : forall k, k <> "analyzed_news" -> c2 !! k = c !! k).
  { intros k Hk. rewrite K2, K1 by (congruence || exact Hk). reflexivity. }
  unfold initialize_database, create_table_sql. cbn [exec_all].
  rewrite E1. cbn [mbind Exc_bind]. rewrite E2. cbn [mbind Exc_bind].
  rewrite !elem_of_cons, elem_of_nil in Hin.
  destruct Hin as [[=-> ->] | [[=-> ->] | [[=-> ->] | []]]].
  - rewrite (exec_index_fail c2 _ _ _ cols2 T2); [reflexivity | rewrite L2 by discriminate; exact Hn |].
    apply industry_cols_not; [discriminate | exact Hcol].
  - destruct (exec_index_step c2 "idx_analyzed_news_analyzed_at" "analyzed_news" "analyzed_at" cols2 T2)
      as [-> | (c3 & E3 & K3)]; [reflexivity|]. rewrite E3. cbn [mbind Exc_bind].
    assert (T3 : c3 !! "analyzed_news" = Some (Table cols2)) by (rewrite K3 by discriminate; exact T2).
    rewrite (exec_index_fail c3 _ _ _ cols2 T3); [reflexivity | rewrite K3, L2 by discriminate; exact Hn |].
    apply industry_cols_not; [discriminate | exact Hcol].
  - destruct (exec_index_step c2 "idx_analyzed_news_analyzed_at" "analyzed_news" "analyzed_at" cols2 T2)
      as [-> | (c3 & E3 & K3)]; [reflexivity|]. rewrite E3. cbn [mbind Exc_bind].
    assert (T3 : c3 !! "analyzed_news" = Some (Table cols2)) by (rewrite K3 by discriminate; exact T2).
    destruct (exec_index_step c3 "idx_analyzed_news_sector" "analyzed_news" "sector" cols2 T3)
      as [-> | (c4 & E4 & K4)]; [reflexivity|]. rewrite E4. cbn [mbind Exc_bind].
    assert (T4 : c4 !! "analyzed_news" = Some (Table cols2)) by (rewrite K4 by discriminate; exact T3).
    destruct (exec_index_ok c4 "idx_analyzed_news_industry" "analyzed_news" "industry" cols2 T4)
      as (c5 & E5 & _ & K5); [right; unfold cols2; case_bool_decide; set_solver|].
    rewrite E5. cbn [mbind Exc_bind].
    assert (T5 : c5 !! "analyzed_news" = Some (Table cols2)) by (rewrite K5 by discriminate; exact T4).
    rewrite (exec_index_fail c5 _ _ _ cols2 T5); [reflexivity | rewrite K5, K4, K3, L2 by discriminate; exact Hn |].
    apply industry_cols_not; [discriminate | exact Hcol].
Qed.

End SchemaResults.
Module WorkflowFacts.
Import Workflow.

(** X15: [GetLatestSignals(count)] returns the last min(count, number of received signals) signals, in arrival order. *)
Theorem get_latest_signals_suffix (count : nat) (st : state) :
  length (get_latest_signals count st) = Nat.min count (length (received_signals st)) /\
  exists older, received_signals st = older ++ get_latest_signals count st.
Proof.
  unfold get_latest_signals. split.
  - rewrite length_drop. lia.
  - exists (take (length (received_signals st) - count) (received_signals st)).
    symmetry. apply take_drop.
Qed.

Lemma handle_all_received xs st :
  received_signals (Batches.handle_all xs st) = received_signals st ++ xs.
Proof.
  revert st. induction xs as [|x xs IH]; intros st; simpl.
  - rewrite app_nil_r. reflexivity.
  - unfold Batches.handle_all in *. simpl. rewrite IH. simpl. rewrite <- app_assoc. reflexivity.
Qed.

(** X16: after [HandleNewsSignal] on a sequence of signals, the count grows by its length and [GetLatestSignals] of that length returns the sequence. *)
Theorem handle_all_latest (xs : list SignalData.t) (st : state) :
  get_signals_count (Batches.handle_all xs st) = get_signals_count st + length xs /\
  get_latest_signals (length xs) (Batches.handle_all xs st) = xs.
Proof.
  unfold get_signals_count, get_latest_signals. rewrite handle_all_received.
  split; [apply length_app|].
  rewrite length_app. replace (length (received_signals st) + length xs - length xs)
    with (length (received_signals st)) by lia.
  apply drop_app_length.
Qed.

End WorkflowFacts.

Module StartupFacts.
Import Startup.

(** X17: the worker tries one to three workflow ids: first the fixed id, then ids suffixed with the timestamps, the latter only after the fixed id was already started; a launched id is the last tried and was started; after a failure the last id tried was not started. *)
Theorem startup_attempts start describe stamp1 stamp2 :
  let ids := fst (execute_startup start describe stamp1 stamp2) in
  let o := snd (execute_startup start describe stamp1 stamp2) in
  1 <= length ids <= 3 /\
  head ids = Some workflow_id /\
  (forall id, id ∈ tail ids -> id = suffixed_id stamp1 \/ id = suffixed_id stamp2) /\
  (2 <= length ids -> start workflow_id = AlreadyStarted) /\
  (forall id, o = Launched id -> start id = Started /\ list.last ids = Some id) /\
  (o = StartupFailed -> forall id, list.last ids = Some id -> start id <> Started).
Proof.
  intros ids o. unfold ids, o, execute_startup, start_fallback.
  destruct (start workflow_id) eqn:E0;
    [| destruct describe as [s|]; [destruct (is_terminal s)|] |];
    repeat match goal with |- context [start ?i] =>
      match i with workflow_id => fail 1 | _ => destruct (start i) eqn:? end end;
    cbn [fst snd length head tail list.last];
    repeat split; try lia; try reflexivity; try congruence;
    try (intros ? ?; set_solver);
    try (intros ? [=<-]; split; [assumption|reflexivity]);
    try (intros ? [=]);
    try (intros _ ? [=<-]; congruence).
Qed.

(** X18: the worker attaches to a workflow exactly when the fixed id is already started and that workflow is described as running, unspecified, continued-as-new or timed out; it then attaches to the fixed id. *)
Theorem startup_attach start describe stamp1 stamp2 id :
  snd (execute_startup start describe stamp1 stamp2) = Attached id <->
  start workflow_id = AlreadyStarted /\
  (describe = Some Running \/ describe = Some Unspecified \/
   describe = Some ContinuedAsNew \/ describe = Some TimedOut) /\
  id = workflow_id.
Proof.
  unfold execute_startup, start_fallback.
  destruct (start workflow_id) eqn:E0;
    [| destruct describe as [s|]; [destruct s|] |];
    repeat match goal with |- context [start ?i] =>
      match i with workflow_id => fail 1 | _ => destruct (start i) eqn:? end end;
    cbn [snd is_terminal]; split;
    try (intros [=<-]; intuition congruence);
    try (intros [=]);
    intros (? & H & ->); intuition congruence.
Qed.

End StartupFacts.

(* ------------------------------------------------------------------ *)
(** ** Witnesses: each theorem applied at a concrete input *)

Lemma C4_startup_decision_witness :
  Startup.execute_startup
    (fun id => if String.eqb id Startup.workflow_id then Startup.AlreadyStarted
               else Startup.Started)
    (Some Startup.Completed) "20250912-100000" "20250912-100001"
  = ([Startup.workflow_id; Startup.suffixed_id "20250912-100000"],
     Startup.Launched (Startup.suffixed_id "20250912-100000")).
Proof.
  apply (proj1 (proj2 (C4_startup_decision
    (fun id => if String.eqb id Startup.workflow_id then Startup.AlreadyStarted
               else Startup.Started) "20250912-100000" "20250912-100001" eq_refl))).
  - left; reflexivity.
  - vm_compute. reflexivity.
Defined.

Lemma C6_initialize_idempotent_witness :
  Schema.initialize_database ∅ = Ok Scenarios.catalog_after_init /\
  Schema.initialize_database Scenarios.catalog_after_init = Ok Scenarios.catalog_after_init.
Proof.
  assert (H : Schema.initialize_database ∅ = Ok Scenarios.catalog_after_init)
    by (vm_compute; reflexivity).
  split; [exact H | apply (proj1 (C6_initialize_idempotent _ _ H))].
Defined.

Lemma C9_published_at_witness :
  exists r w',
    convert_to_analyzed_news_record Scenarios.clock0 Scenarios.date_42
      Scenarios.signal_n1 (NewsAnalysisResponse.mk None None None None None None 0)
      Scenarios.world0 = (Ok r, w') /\
    AnalyzedNewsRecord.PublishedAt r = 42%Z.
Proof.
  destruct (C9_published_at Scenarios.clock0 Scenarios.date_42 Scenarios.signal_n1
              (NewsAnalysisResponse.mk None None None None None None 0) Scenarios.world0)
    as (r & w' & Heq & _ & _ & Hparsed & _).
  exists r, w'. split; [exact Heq|].
  apply Hparsed; [vm_compute; discriminate | reflexivity].
Defined.

Lemma C10_analyze_total_witness :
  fst (analyze_news_async Scenarios.http_down Scenarios.news_n1 Scenarios.world0) = Ok None.
Proof.
  apply (proj1 (proj2 (proj2 (C10_analyze_total Scenarios.http_down Scenarios.news_n1
                                 Scenarios.world0))) HttpRequestException).
  reflexivity.
Defined.



Lemma user_prompt_fills_template_witness :
  Prompts.user_prompt (Prompts.render Scenarios.template_pieces) Scenarios.news_n1
  = Prompts.filled Scenarios.news_n1 Scenarios.template_pieces.
Proof.
  apply PromptFacts.user_prompt_fills_template; refine (bool_decide_unpack _ _); vm_compute; exact I.
Defined.

Lemma analyze_confidence_not_number_witness :
  fst (analyze_news_async Scenarios.http_string_confidence Scenarios.news_n1 Scenarios.world0)
  = Ok None.
Proof.
  eapply (BindFacts.analyze_confidence_not_number _ _ _ 200
            (Scenarios.reply_with Scenarios.content_string_confidence) _ _ _ (JStr "0.9"));
    [reflexivity | reflexivity | reflexivity | reflexivity | reflexivity | reflexivity
    | intros q; discriminate].
Defined.

Lemma queue_idle_witness :
  process_news_queue Scenarios.clock0 Scenarios.no_date Scenarios.http_down
    (repeat false 3) Scenarios.world0
  = (Ok StillRunning, mkWorld (repeat (EvDelay 2) 3) 0 ∅ []).
Proof.
  exact (ServiceFacts.queue_idle Scenarios.clock0 Scenarios.no_date Scenarios.http_down
           3 Scenarios.world0 eq_refl).
Defined.

Lemma initialize_database_missing_column_witness :
  Schema.initialize_database Scenarios.catalog_partial = Throw PostgresException.
Proof.
  apply (SchemaResults.initialize_database_missing_column _ ["id"; "title"; "link"]
           "idx_analyzed_news_analyzed_at" "analyzed_at");
    [reflexivity | refine (bool_decide_unpack _ _); vm_compute; exact I
    | reflexivity | refine (bool_decide_unpack _ _); vm_compute; exact I].
Defined.




Lemma C8_adapter_failures_skipped_witness :
  fst (process_news_queue Scenarios.clock0 Scenarios.no_date Scenarios.http_mixed
         [false; false] Scenarios.world_two_queued) = Ok StillRunning /\
  w_queue (snd (process_news_queue Scenarios.clock0 Scenarios.no_date Scenarios.http_mixed
                  [false; false] Scenarios.world_two_queued)) = [] /\
  w_db (snd (process_news_queue Scenarios.clock0 Scenarios.no_date Scenarios.http_mixed
               [false; false] Scenarios.world_two_queued)) !! "n1" = None /\
  is_Some (w_db (snd (process_news_queue Scenarios.clock0 Scenarios.no_date Scenarios.http_mixed
                        [false; false] Scenarios.world_two_queued)) !! "n2").
Proof.
  destruct (C8_adapter_failures_skipped Scenarios.clock0 Scenarios.no_date Scenarios.http_mixed
              [] [Scenarios.signal_n2] Scenarios.signal_n1 Scenarios.world_two_queued eq_refl
              ltac:(intros w'; reflexivity))
    as (Hrun & Hq & _ & Hdb & _ & _).
  change [false; false]
    with (repeat false (length ([] ++ Scenarios.signal_n1 :: [Scenarios.signal_n2]))).
  split; [exact Hrun|]. split; [exact Hq|]. rewrite Hdb.
  split; vm_compute; [reflexivity | eexists; reflexivity].
Defined.



